(** * Proxy worker with multi-level routing: a shallow embedding of
      [src/index.js] and the properties of its [fetch] handler.

    The worker is one asynchronous function.  It is embedded as a
    computation in a small monad that records the three ways a JavaScript
    block can end (fall through, [return], [throw]) together with the log of
    the calls that leave the worker (key-value reads and the outbound
    [fetch]).  What the Workers runtime provides ([JSON], [URL], the global
    [fetch], the number type) is an interface, [Runtime]; the statements
    below hold for every implementation of it, and [Model.runtime] is one
    executable implementation used for the concrete examples. *)

From Stdlib Require Import String Ascii List ZArith Bool Lia.
From stdpp Require Import base strings gmap pretty.
Import ListNotations.

Local Open Scope string_scope.
Local Open Scope Z_scope.

(** ** Results of runtime calls *)

(** A call into the runtime either yields a value or throws an error
    carrying a [message] (the only field of the error the worker reads,
    index.js:142). *)
Inductive result (A : Type) : Type :=
| Ok (a : A)
| Err (message : string).
Arguments Ok {A} a.
Arguments Err {A} message.

(** ** JavaScript values *)

(** The values that reach the worker's variables: what [JSON.parse]
    produces, plus [undefined].  [number] is the runtime's number type. *)
#[warnings="-register-all"]
Inductive value (number : Type) : Type :=
| VUndefined
| VNull
| VBoolean (b : bool)
| VNumber (n : number)
| VString (s : string)
| VArray (elements : list (value number))
| VObject (properties : list (string * value number)).
Arguments VUndefined {number}.
Arguments VNull {number}.
Arguments VBoolean {number} b.
Arguments VNumber {number} n.
Arguments VString {number} s.
Arguments VArray {number} elements.
Arguments VObject {number} properties.

(** ** HTTP messages *)

Definition Headers : Type := list (string * string).

Record Request : Type := mkRequest {
  req_url : string;
  req_method : string;
  req_headers : Headers;
  req_body : option string
}.

Record Response : Type := mkResponse {
  resp_body : option string;
  status : Z;
  statusText : string;
  resp_headers : Headers
}.

(** The view of a parsed URL that the worker uses: the getters of the [URL]
    class and [searchParams.get]. *)
Record URL : Type := mkURL {
  href : string;
  protocol : string;
  host : string;
  pathname : string;
  search : string;
  hash : string;
  searchParams_get : string -> option string
}.

(** ** The runtime interface *)

Class Runtime : Type := {
  number : Type;
  (** ToBoolean and ToString on numbers. *)
  Number_toBoolean : number -> bool;
  Number_toString : number -> string;
  (** [JSON.parse(text)]; throws a SyntaxError on malformed text. *)
  JSON_parse : string -> result (value number);
  (** [JSON.stringify(v)] for a value other than [undefined]. *)
  JSON_stringify : value number -> string;
  (** [new URL(input)] and [new URL(input, base)]; throws a TypeError on an
      invalid URL. *)
  URL_new : string -> option string -> result URL;
  (** The global [fetch]: the backend's response, or a rejection. *)
  global_fetch : Request -> result Response
}.

(** The binding [env.ROUTING_KV]: [get(key)] resolves to the stored string,
    to [null] when the key is absent, or rejects. *)
Record Env : Type := mkEnv {
  ROUTING_KV_get : string -> result (option string)
}.

(** A namespace backed by a finite map, as the test suite fills it with
    [env.ROUTING_KV.put]. *)
Definition Env_of_map (store : gmap string string) : Env :=
  {| ROUTING_KV_get := fun key => Ok (store !! key) |}.

(** ** Language semantics used by the worker *)

Section Semantics.
Context {RT : Runtime}.

Abbreviation value := (value number).

(** ToBoolean, the test of [if (x)], [!x] and [x || y]. *)
Definition ToBoolean (v : value) : bool :=
  match v with
  | VUndefined | VNull => false
  | VBoolean b => b
  | VNumber n => Number_toBoolean n
  | VString s => negb (String.eqb s "")
  | VArray _ | VObject _ => true
  end.

(** Own property lookup on the property list of an object. *)
Fixpoint own_property (properties : list (string * value)) (name : string)
  : option value :=
  match properties with
  | [] => None
  | (k, v) :: rest => if String.eqb k name then Some v else own_property rest name
  end.

Definition TypeError_read (base name : string) : string :=
  "Cannot read properties of " ++ base ++ " (reading '" ++ name ++ "')".

(** [v.name] for a name that no built-in prototype defines (the worker
    reads [data], [customerId] and [warehouseId]): a TypeError on [null]
    and [undefined], the own property of an object, [undefined]
    otherwise. *)
Definition Get (v : value) (name : string) : result value :=
  match v with
  | VUndefined => Err (TypeError_read "undefined" name)
  | VNull => Err (TypeError_read "null" name)
  | VObject properties =>
      match own_property properties name with
      | Some x => Ok x
      | None => Ok VUndefined
      end
  | _ => Ok VUndefined
  end.

Definition TypeError_primitive : string :=
  "Cannot convert object to primitive value".

(** ToString, as applied by template literals, by [+] with a string and
    by [JSON.parse] to its argument.  An array is joined with commas,
    [null] and [undefined] elements giving the empty string; a plain
    object gives "[object Object]" unless an own [toString] property
    (never callable in parsed JSON) hides the inherited method, in which
    case the conversion throws. *)
Fixpoint ToString (v : value) : result string :=
  match v with
  | VUndefined => Ok "undefined"
  | VNull => Ok "null"
  | VBoolean true => Ok "true"
  | VBoolean false => Ok "false"
  | VNumber n => Ok (Number_toString n)
  | VString s => Ok s
  | VArray elements =>
      (fix join (l : list value) : result string :=
         match l with
         | [] => Ok ""
         | x :: rest =>
             let element :=
               match x with
               | VUndefined | VNull => Ok ""
               | _ => ToString x
               end in
             match element with
             | Err m => Err m
             | Ok s =>
                 match rest with
                 | [] => Ok s
                 | _ => match join rest with
                        | Ok r => Ok (s ++ "," ++ r)
                        | Err m => Err m
                        end
                 end
             end
         end) elements
  | VObject properties =>
      match own_property properties "toString" with
      | Some _ => Err TypeError_primitive
      | None => Ok "[object Object]"
      end
  end.

End Semantics.

(** ** The worker monad *)

(** Calls that leave the worker, in the order they are made. *)
Inductive event : Type :=
| KV_get (key : string)
| Fetch (request : Request).

(** How a block of statements ends. *)
Inductive completion (A : Type) : Type :=
| Normal (a : A)
| Return (response : Response)
| Throw (message : string).
Arguments Normal {A} a.
Arguments Return {A} response.
Arguments Throw {A} message.

Definition M (A : Type) : Type := completion A * list event.

Definition ret {A} (a : A) : M A := (Normal a, []).
Definition return_ {A} (response : Response) : M A := (Return response, []).
Definition throw {A} (message : string) : M A := (Throw message, []).

Definition bind {A B} (m : M A) (k : A -> M B) : M B :=
  match m with
  | (Normal a, log) => let (c, log') := k a in (c, (log ++ log')%list)
  | (Return r, log) => (Return r, log)
  | (Throw e, log) => (Throw e, log)
  end.

(** [try { m } catch (e) { handler }]: only a [throw] is intercepted. *)
Definition try_catch {A} (m : M A) (handler : string -> M A) : M A :=
  match m with
  | (Normal a, log) => (Normal a, log)
  | (Return r, log) => (Return r, log)
  | (Throw e, log) => let (c, log') := handler e in (c, (log ++ log')%list)
  end.

(** A runtime call without an observable effect. *)
Definition lift {A} (r : result A) : M A :=
  match r with
  | Ok a => ret a
  | Err e => throw e
  end.

Declare Scope worker_scope.
Delimit Scope worker_scope with worker.
Notation "x <- m ;; k" := (bind m (fun x => k))
  (at level 100, m at next level, right associativity) : worker_scope.
Local Open Scope worker_scope.

(** ** The worker, [src/index.js] *)

Section Worker.
Context {RT : Runtime}.

Abbreviation value := (value number).

(** [await env.ROUTING_KV.get(key)]. *)
Definition ROUTING_KV_get_ (env : Env) (key : string) : M value :=
  (match ROUTING_KV_get env key with
   | Ok (Some s) => Normal (VString s)
   | Ok None => Normal VNull
   | Err e => Throw e
   end, [KV_get key]).

(** [await fetch(forwardRequest)]. *)
Definition fetch_ (forwardRequest : Request) : M Response :=
  (match global_fetch forwardRequest with
   | Ok r => Normal r
   | Err e => Throw e
   end, [Fetch forwardRequest]).

(** [await request.json()]: the body text (empty when there is no body)
    parsed as JSON. *)
Definition request_json (request : Request) : result value :=
  JSON_parse (match req_body request with Some text => text | None => "" end).

(** [new Response(JSON.stringify(object), { status, headers:
    { 'Content-Type': 'application/json' } })]. *)
Definition json_response (object : value) (code : Z) : Response :=
  {| resp_body := Some (JSON_stringify object);
     status := code;
     statusText := "";
     resp_headers := [("Content-Type", "application/json")] |}.

Definition error_object (message : string) : value :=
  VObject [("error", VString message)].

(** index.js:44-47, the body of the inner [try]. *)
Definition parse_data (data : value) : result (value * value) :=
  match ToString data with
  | Err e => Err e
  | Ok text =>
      match JSON_parse text with
      | Err e => Err e
      | Ok parsedData =>
          match Get parsedData "customerId" with
          | Err e => Err e
          | Ok customerId =>
              match Get parsedData "warehouseId" with
              | Err e => Err e
              | Ok warehouseId => Ok (customerId, warehouseId)
              end
          end
      end
  end.

(** index.js:21-65: [customerId], [warehouseId] and [requestBody] by
    request method. *)
Definition extract (request : Request) (url : URL) : M (value * value * value) :=
  let method := req_method request in
  if String.eqb method "POST" then
    requestBody <-
      try_catch (lift (request_json request))
        (fun jsonError =>
           return_ (json_response
                      (error_object "Invalid or missing JSON body in request") 400)) ;;
    data <- lift (Get requestBody "data") ;;
    if negb (ToBoolean data) then
      return_ (json_response (error_object "Missing data field in request body") 400)
    else
      parsed <-
        try_catch (lift (parse_data data))
          (fun parseError =>
             return_ (json_response (error_object "Invalid JSON in data field") 400)) ;;
      let '(customerId, warehouseId) := parsed in
      ret (customerId, warehouseId, requestBody)
  else if String.eqb method "GET" then
    let param name :=
      match searchParams_get url name with
      | Some s => VString s
      | None => VNull
      end in
    ret (param "customerId", param "warehouseId", VUndefined)
  else
    return_ (json_response
               (error_object ("Method " ++ method ++ " not supported")) 405).

(** index.js:77-88, step 1: the target key, warehouse-specific first. *)
Definition lookup_target (env : Env) (customerId warehouseId : value) : M value :=
  targetKey <-
    (if ToBoolean warehouseId then
       c <- lift (ToString customerId) ;;
       w <- lift (ToString warehouseId) ;;
       ROUTING_KV_get_ env ("route:" ++ c ++ ":" ++ w)
     else ret VNull) ;;
  if negb (ToBoolean targetKey) then
    c <- lift (ToString customerId) ;;
    ROUTING_KV_get_ env ("route:" ++ c)
  else ret targetKey.

(** index.js:111-116, step 3: the destination path. *)
Definition lookup_path (env : Env) (targetKey : value) (sourcePath : string)
  : M value :=
  t <- lift (ToString targetKey) ;;
  pathMapping <- ROUTING_KV_get_ env ("path:" ++ t ++ ":" ++ sourcePath) ;;
  ret (if ToBoolean pathMapping then pathMapping else VString sourcePath).

(** index.js:122-126, [new Request(targetUrl.toString(), { method, headers,
    body })]. *)
Definition make_forward (request : Request) (requestBody : value) (targetUrl : URL)
  : Request :=
  {| req_url := href targetUrl;
     req_method := req_method request;
     req_headers := req_headers request;
     req_body := if String.eqb (req_method request) "POST"
                 then Some (JSON_stringify requestBody) else None |}.

(** index.js:118-126: the target URL and the request that is forwarded. *)
Definition build_forward (request : Request) (url : URL) (requestBody : value)
    (targetEndpoint : string) (destinationPath : value) : M Request :=
  d <- lift (ToString destinationPath) ;;
  targetUrl <- lift (URL_new (d ++ search url) (Some targetEndpoint)) ;;
  ret (make_forward request requestBody targetUrl).

(** index.js:111-136: path lookup, forwarding, and relay of the backend's
    response. *)
Definition forward (request : Request) (env : Env) (url : URL)
    (requestBody targetKey targetEndpoint : value) : M Response :=
  let sourcePath := pathname url in
  destinationPath <- lookup_path env targetKey sourcePath ;;
  e <- lift (ToString targetEndpoint) ;;
  forwardRequest <- build_forward request url requestBody e destinationPath ;;
  response <- fetch_ forwardRequest ;;
  ret {| resp_body := resp_body response;
         status := status response;
         statusText := statusText response;
         resp_headers := resp_headers response |}.

(** index.js:18-136, the body of the outer [try]. *)
Definition handle (request : Request) (env : Env) : M Response :=
  url <- lift (URL_new (req_url request) None) ;;
  extracted <- extract request url ;;
  let '(customerId, warehouseId, requestBody) := extracted in
  if negb (ToBoolean customerId) then
    return_ (json_response
               (error_object "Missing required parameter: customerId") 400)
  else
    targetKey <- lookup_target env customerId warehouseId ;;
    if negb (ToBoolean targetKey) then
      c <- lift (ToString customerId) ;;
      suffix <- (if ToBoolean warehouseId then
                   w <- lift (ToString warehouseId) ;;
                   ret (", warehouseId: " ++ w)
                 else ret "") ;;
      return_ (json_response
                 (error_object ("No routing found for customerId: " ++ c ++ suffix))
                 404)
    else
      t <- lift (ToString targetKey) ;;
      targetEndpoint <- ROUTING_KV_get_ env ("endpoint:" ++ t) ;;
      if negb (ToBoolean targetEndpoint) then
        t <- lift (ToString targetKey) ;;
        return_ (json_response
                   (error_object ("No endpoint found for target: " ++ t)) 404)
      else
        forward request env url requestBody targetKey targetEndpoint.

(** index.js:138-149, the outer [catch]. *)
Definition internal_error (message : string) : Response :=
  json_response
    (VObject [("error", VString "Internal server error");
              ("message", VString message)]) 500.

(** [fetch(request, env, ctx)]: the response and the calls made. *)
Definition fetch (request : Request) (env : Env) : Response * list event :=
  match handle request env with
  | (Normal response, log) => (response, log)
  | (Return response, log) => (response, log)
  | (Throw message, log) => (internal_error message, log)
  end.

End Worker.

(** ** Vocabulary of the specification *)

(** [text] contains [needle], as [expect(text).toContain(needle)] tests it. *)
Definition Contains (needle text : string) : Prop :=
  exists before after, text = before ++ needle ++ after.

Fixpoint starts_with (p s : string) : bool :=
  match p, s with
  | EmptyString, _ => true
  | String a p', String b s' => Ascii.eqb a b && starts_with p' s'
  | String _ _, EmptyString => false
  end.

(** The decision procedure for [Contains]. *)
Fixpoint contains (needle text : string) : bool :=
  starts_with needle text ||
  match text with
  | EmptyString => false
  | String _ rest => contains needle rest
  end.

(** The error classes of the worker and what each carries. *)
Inductive failure : Type :=
| InvalidBody
| MissingDataField
| InvalidDataField
| MissingParameter
| UnsupportedMethod (method : string)
| RoutingNotFound (customerId : string) (warehouseId : option string)
| EndpointNotFound (targetKey : string)
| Internal (message : string).

Definition failure_status (f : failure) : Z :=
  match f with
  | InvalidBody | MissingDataField | InvalidDataField | MissingParameter => 400
  | UnsupportedMethod _ => 405
  | RoutingNotFound _ _ | EndpointNotFound _ => 404
  | Internal _ => 500
  end.

(** The text of the [error] field. *)
Definition failure_message (f : failure) : string :=
  match f with
  | InvalidBody => "Invalid or missing JSON body in request"
  | MissingDataField => "Missing data field in request body"
  | InvalidDataField => "Invalid JSON in data field"
  | MissingParameter => "Missing required parameter: customerId"
  | UnsupportedMethod method => "Method " ++ method ++ " not supported"
  | RoutingNotFound c None => "No routing found for customerId: " ++ c ++ ""
  | RoutingNotFound c (Some w) =>
      "No routing found for customerId: " ++ c ++ ", warehouseId: " ++ w
  | EndpointNotFound t => "No endpoint found for target: " ++ t
  | Internal _ => "Internal server error"
  end.

Section Vocabulary.
Context {RT : Runtime}.

Abbreviation value := (value number).

(** The object that is serialised into the body of a failure response. *)
Definition failure_object (f : failure) : value :=
  match f with
  | Internal message =>
      VObject [("error", VString (failure_message f)); ("message", VString message)]
  | _ => error_object (failure_message f)
  end.

Definition failure_response (f : failure) : Response :=
  json_response (failure_object f) (failure_status f).

(** A failure response with the given status whose [error] text contains
    [needle]. *)
Definition is_error (r : Response) (code : Z) (needle : string) : Prop :=
  exists message, r = json_response (error_object message) code /\ Contains needle message.

(** [v] is an object with an own property [name]. *)
Definition has_own (v : value) (name : string) : bool :=
  match v with
  | VObject properties =>
      match own_property properties name with
      | Some _ => true
      | None => false
      end
  | _ => false
  end.

(** What a key-value read completes with. *)
Definition kv_completion (r : result (option string)) : completion value :=
  match r with
  | Ok (Some s) => Normal (VString s)
  | Ok None => Normal VNull
  | Err e => Throw e
  end.



(** A completion of a step that only reads the store: a string, [null],
    or an exception. *)
Definition from_store (c : completion value) : Prop :=
  match c with
  | Normal v => v = VNull \/ exists s, v = VString s
  | Return _ => False
  | Throw _ => True
  end.


(** The request resolves to target key [t] and endpoint [e]: index.js:18-109
    run through without a response or an exception, having made the calls
    [log]. *)
Record Resolved (request : Request) (env : Env) (url : URL) (requestBody : value)
    (t e : string) (log : list event) : Prop := mkResolved {
  resolved_url : URL_new (req_url request) None = Ok url;
  resolved_target :
    exists customerId warehouseId kvlog,
      extract request url = (Normal (customerId, warehouseId, requestBody), []) /\
      ToBoolean customerId = true /\
      lookup_target env customerId warehouseId = (Normal (VString t), kvlog) /\
      log = (kvlog ++ [KV_get ("endpoint:" ++ t)])%list;
  resolved_target_nonempty : t <> "";
  resolved_endpoint : ROUTING_KV_get env ("endpoint:" ++ t) = Ok (Some e);
  resolved_endpoint_nonempty : e <> ""
}.

Definition is_KV_get (e : event) : Prop :=
  match e with
  | KV_get _ => True
  | Fetch _ => False
  end.

Definition not_internal (f : failure) : Prop :=
  match f with
  | Internal _ => False
  | _ => True
  end.

(** The three ways the body of the outer [try] ends: the relayed response
    of the one outbound call, a classified failure before any outbound
    call, or an exception, raised by that call or before it. *)
Definition outcome (m : M Response) : Prop :=
  match m with
  | (Normal r, log) =>
      exists kv fwd, log = (kv ++ [Fetch fwd])%list /\ Forall is_KV_get kv /\
                     global_fetch fwd = Ok r
  | (Return r, log) =>
      (exists f, r = failure_response f /\ not_internal f) /\ Forall is_KV_get log
  | (Throw m, log) =>
      Forall is_KV_get log \/
      exists kv fwd, log = (kv ++ [Fetch fwd])%list /\ Forall is_KV_get kv /\
                     global_fetch fwd = Err m
  end.

(** [warehouseId] is missing, or its route is absent or empty. *)
Definition no_warehouse_route (env : Env) (c : string) (warehouseId : value) : Prop :=
  ToBoolean warehouseId = false \/
  exists w, warehouseId = VString w /\ w <> "" /\
            (ROUTING_KV_get env ("route:" ++ c ++ ":" ++ w) = Ok None \/
             ROUTING_KV_get env ("route:" ++ c ++ ":" ++ w) = Ok (Some "")).

End Vocabulary.


(** The three key namespaces of the store (index.js:9-12). *)
Definition in_namespace (key : string) : bool :=
  starts_with "route:" key || starts_with "endpoint:" key || starts_with "path:" key.

(** At most [n] reads, of keys in the three namespaces, then at most one
    outbound call. *)
Definition disciplined (n : nat) (log : list event) : Prop :=
  exists keys,
    Forall (fun k => in_namespace k = true) keys /\ (length keys <= n)%nat /\
    (log = map KV_get keys \/
     exists forwardRequest, log = (map KV_get keys ++ [Fetch forwardRequest])%list).

(** A computation that ends at a rejected read, with the exception of that
    read. *)
Definition stops_at_rejection (env : Env) {A} (m : M A) : Prop :=
  forall key e,
    In (KV_get key) (snd m) -> ROUTING_KV_get env key = Err e ->
    fst m = Throw e /\ exists l, snd m = (l ++ [KV_get key])%list.

(** A computation that gives the same result on a second store that agrees
    on the keys read. *)
Definition framed (env env' : Env) {A} (m m' : M A) : Prop :=
  (forall key, In (KV_get key) (snd m) -> ROUTING_KV_get env' key = ROUTING_KV_get env key) ->
  m' = m.

(** ** An executable runtime *)

(** A model of the runtime calls, for running the worker on concrete
    requests.  [JSON] covers integer numbers and string escapes of ASCII characters;
    [URL] covers http and https URLs written with characters the URL parser
    copies unchanged: host canonicalisation, percent-encoding and the
    removal of dot segments are not modelled, and the statements about this
    model carry the hypotheses that keep them inside that fragment. *)
Module Model.

(** *** Strings *)

Fixpoint break (p : ascii -> bool) (s : string) : string * string :=
  match s with
  | EmptyString => ("", "")
  | String c rest =>
      if p c then ("", s)
      else let (a, b) := break p rest in (String c a, b)
  end.

Fixpoint drop_while (p : ascii -> bool) (s : string) : string :=
  match s with
  | EmptyString => ""
  | String c rest => if p c then drop_while p rest else s
  end.

Fixpoint map_string (f : ascii -> ascii) (s : string) : string :=
  match s with
  | EmptyString => ""
  | String c rest => String (f c) (map_string f rest)
  end.

Fixpoint forall_string (p : ascii -> bool) (s : string) : bool :=
  match s with
  | EmptyString => true
  | String c rest => p c && forall_string p rest
  end.

Definition code (c : ascii) : N := N_of_ascii c.

Definition in_range (lo hi c : ascii) : bool :=
  (code lo <=? code c)%N && (code c <=? code hi)%N.

Definition is_digit (c : ascii) : bool := in_range "0" "9" c.
Definition is_upper (c : ascii) : bool := in_range "A" "Z" c.
Definition is_lower (c : ascii) : bool := in_range "a" "z" c.
Definition is_alpha (c : ascii) : bool := is_upper c || is_lower c.
Definition is_char (x c : ascii) : bool := Ascii.eqb c x.
Definition one_of (chars : string) (c : ascii) : bool :=
  negb (forall_string (fun x => negb (Ascii.eqb c x)) chars).

Definition dquote : ascii := "034"%char.

Definition to_lower (c : ascii) : ascii :=
  if is_upper c then ascii_of_N (code c + 32) else c.

Definition hex_value (c : ascii) : option N :=
  if is_digit c then Some (code c - 48)%N
  else if in_range "a" "f" c then Some (code c - 87)%N
  else if in_range "A" "F" c then Some (code c - 55)%N
  else None.

(** *** JSON *)

Abbreviation json := (value Z).

Definition is_space (c : ascii) : bool :=
  one_of (String " " (String "009" (String "010" (String "013" ""))))%char c.

Definition skip_space (s : string) : string := drop_while is_space s.

(** The characters of a string literal after its opening quote. *)
Fixpoint parse_chars (s : string) : option (string * string) :=
  match s with
  | EmptyString => None
  | String c rest =>
      if is_char dquote c then Some ("", rest)
      else if is_char "\" c then
        match rest with
        | String "u" (String h1 (String h2 (String h3 (String h4 rest')))) =>
            match hex_value h1, hex_value h2, hex_value h3, hex_value h4 with
            | Some a, Some b, Some c, Some d =>
                let n := (((a * 16 + b) * 16 + c) * 16 + d)%N in
                if (n <? 128)%N then
                  match parse_chars rest' with
                  | Some (text, after) => Some (String (ascii_of_N n) text, after)
                  | None => None
                  end
                else None
            | _, _, _, _ => None
            end
        | String e rest' =>
            let unescaped : option ascii :=
              if is_char dquote e || one_of "\/" e then Some e
              else if is_char "b" e then Some "008"%char
              else if is_char "f" e then Some "012"%char
              else if is_char "n" e then Some "010"%char
              else if is_char "r" e then Some "013"%char
              else if is_char "t" e then Some "009"%char
              else None in
            match unescaped, parse_chars rest' with
            | Some x, Some (text, after) => Some (String x text, after)
            | _, _ => None
            end
        | EmptyString => None
        end
      else if (code c <? 32)%N then None
      else match parse_chars rest with
           | Some (text, after) => Some (String c text, after)
           | None => None
           end
  end.

Fixpoint digits_value (acc : Z) (s : string) : Z :=
  match s with
  | EmptyString => acc
  | String c rest => digits_value (10 * acc + Z.of_N (code c - 48)) rest
  end.

(** An integer literal: an optional minus sign and digits without a
    leading zero; a fraction or an exponent is outside the model. *)
Definition parse_number (s : string) : option (Z * string) :=
  let (negative, s1) :=
    match s with
    | String "-" rest => (true, rest)
    | _ => (false, s)
    end in
  let (digits, after) := break (fun c => negb (is_digit c)) s1 in
  match digits with
  | EmptyString => None
  | String "0" (String _ _) => None
  | _ =>
      match after with
      | String c _ => if one_of ".eE" c then None
                      else Some (if negative then - digits_value 0 digits
                                 else digits_value 0 digits, after)
      | EmptyString => Some (if negative then - digits_value 0 digits
                             else digits_value 0 digits, after)
      end
  end.

Definition strip_prefix (p s : string) : option string :=
  if String.prefix p s
  then Some (String.substring (String.length p) (String.length s - String.length p) s)
  else None.

(** [obj[key] = v] while parsing: a repeated key keeps its place and
    takes the last value. *)
Fixpoint set_property (properties : list (string * json)) (key : string) (v : json)
  : list (string * json) :=
  match properties with
  | [] => [(key, v)]
  | (k, x) :: rest =>
      if String.eqb k key then (k, v) :: rest
      else (k, x) :: set_property rest key v
  end.

Fixpoint parse_value (fuel : nat) (s : string) : option (json * string) :=
  match fuel with
  | O => None
  | S fuel =>
      match skip_space s with
      | EmptyString => None
      | String c rest =>
          if is_char "n" c then
            option_map (pair VNull) (strip_prefix "null" (skip_space s))
          else if is_char "t" c then
            option_map (pair (VBoolean true)) (strip_prefix "true" (skip_space s))
          else if is_char "f" c then
            option_map (pair (VBoolean false)) (strip_prefix "false" (skip_space s))
          else if is_char dquote c then
            match parse_chars rest with
            | Some (text, after) => Some (VString text, after)
            | None => None
            end
          else if is_char "[" c then
            match skip_space rest with
            | String "]" after => Some (VArray [], after)
            | _ => match parse_elements fuel rest with
                   | Some (elements, after) => Some (VArray elements, after)
                   | None => None
                   end
            end
          else if is_char "{" c then
            match skip_space rest with
            | String "}" after => Some (VObject [], after)
            | _ => match parse_members fuel [] rest with
                   | Some (properties, after) => Some (VObject properties, after)
                   | None => None
                   end
            end
          else
            match parse_number (skip_space s) with
            | Some (n, after) => Some (VNumber n, after)
            | None => None
            end
      end
  end
with parse_elements (fuel : nat) (s : string) : option (list json * string) :=
  match fuel with
  | O => None
  | S fuel =>
      match parse_value fuel s with
      | Some (v, after) =>
          match skip_space after with
          | String "," rest =>
              match parse_elements fuel rest with
              | Some (vs, after') => Some (v :: vs, after')
              | None => None
              end
          | String "]" rest => Some ([v], rest)
          | _ => None
          end
      | None => None
      end
  end
with parse_members (fuel : nat) (acc : list (string * json)) (s : string)
  : option (list (string * json) * string) :=
  match fuel with
  | O => None
  | S fuel =>
      match skip_space s with
      | EmptyString => None
      | String c rest =>
          if is_char dquote c then
            match parse_chars rest with
            | Some (key, after) =>
                match skip_space after with
                | String ":" rest' =>
                    match parse_value fuel rest' with
                    | Some (v, after') =>
                        let acc' := set_property acc key v in
                        match skip_space after' with
                        | String "," rest'' => parse_members fuel acc' rest''
                        | String "}" rest'' => Some (acc', rest'')
                        | _ => None
                        end
                    | None => None
                    end
                | _ => None
                end
            | None => None
            end
          else None
      end
  end.

Definition SyntaxError : string := "Unexpected token in JSON".

Definition JSON_parse (text : string) : result json :=
  match parse_value (2 * String.length text + 2) text with
  | Some (v, after) =>
      match skip_space after with
      | EmptyString => Ok v
      | _ => Err SyntaxError
      end
  | None => Err SyntaxError
  end.

Definition hex_digit (n : N) : ascii :=
  if (n <? 10)%N then ascii_of_N (48 + n) else ascii_of_N (87 + n).

(** One character of a string literal. *)
Definition escape (c : ascii) : string :=
  if is_char dquote c then String "\" (String dquote "")
  else if is_char "\" c then "\\"
  else if is_char "008" c then "\b"
  else if is_char "012" c then "\f"
  else if is_char "010" c then "\n"
  else if is_char "013" c then "\r"
  else if is_char "009" c then "\t"
  else if (code c <? 32)%N then
    "\u00" ++ String (hex_digit (code c / 16)) (String (hex_digit (code c mod 16)) "")
  else String c "".

Fixpoint quote_chars (s : string) : string :=
  match s with
  | EmptyString => ""
  | String c rest => escape c ++ quote_chars rest
  end.

Definition quote (s : string) : string :=
  String dquote (quote_chars s ++ String dquote "").

Fixpoint join_comma (l : list string) : string :=
  match l with
  | [] => ""
  | [x] => x
  | x :: rest => x ++ "," ++ join_comma rest
  end.

(** [JSON.stringify]; [None] stands for the result [undefined]. *)
Fixpoint stringify (v : json) : option string :=
  match v with
  | VUndefined => None
  | VNull => Some "null"
  | VBoolean true => Some "true"
  | VBoolean false => Some "false"
  | VNumber n => Some (pretty n)
  | VString s => Some (quote s)
  | VArray elements =>
      let texts :=
        (fix go (l : list json) : list string :=
           match l with
           | [] => []
           | x :: rest =>
               match stringify x with
               | Some t => t :: go rest
               | None => "null" :: go rest
               end
           end) elements in
      Some ("[" ++ join_comma texts ++ "]")
  | VObject properties =>
      let texts :=
        (fix go (l : list (string * json)) : list string :=
           match l with
           | [] => []
           | (k, x) :: rest =>
               match stringify x with
               | Some t => (quote k ++ ":" ++ t) :: go rest
               | None => go rest
               end
           end) properties in
      Some ("{" ++ join_comma texts ++ "}")
  end.

Definition JSON_stringify (v : json) : string :=
  match stringify v with
  | Some text => text
  | None => "undefined"
  end.

(** *** URL *)

(** The components of a parsed URL; [u_query] and [u_fragment] keep their
    leading "?" and "#" and are empty when the component is absent. *)
Record parts : Type := mkParts {
  u_protocol : string;
  u_host : string;
  u_path : string;
  u_query : string;
  u_fragment : string
}.

Definition is_slash (c : ascii) : bool := one_of "/\" c.

(** A scheme and the text after its colon. *)
Definition split_scheme (s : string) : option (string * string) :=
  match s with
  | String c _ =>
      if is_alpha c then
        let (scheme, after) :=
          break (fun x => negb (is_alpha x || is_digit x || one_of "+-." x)) s in
        match after with
        | String ":" rest => Some (map_string to_lower scheme, rest)
        | _ => None
        end
      else None
  | EmptyString => None
  end.

Fixpoint dirname (s : string) : string :=
  match s with
  | EmptyString => ""
  | String c rest =>
      if forall_string (fun x => negb (is_char "/" x)) rest
      then (if is_char "/" c then "/" else "")
      else String c (dirname rest)
  end.

Definition InvalidURL : string := "Invalid URL".

(** Authority and path, after the slashes that follow the scheme. *)
Definition authority (proto s query fragment : string) : result parts :=
  let (h, path) := break is_slash s in
  match h with
  | EmptyString => Err InvalidURL
  | _ => Ok (mkParts proto h (match path with EmptyString => "/" | _ => path end)
               query fragment)
  end.

(** A reference without a scheme, against a base. *)
Definition relative (base : parts) (pre query fragment : string) : result parts :=
  match pre with
  | EmptyString =>
      match query, fragment with
      | EmptyString, EmptyString =>
          Ok (mkParts (u_protocol base) (u_host base) (u_path base) (u_query base) "")
      | EmptyString, _ =>
          Ok (mkParts (u_protocol base) (u_host base) (u_path base) (u_query base)
                fragment)
      | _, _ =>
          Ok (mkParts (u_protocol base) (u_host base) (u_path base) query fragment)
      end
  | String "/" (String "/" _) =>
      authority (u_protocol base) (drop_while is_slash pre) query fragment
  | String "/" _ =>
      Ok (mkParts (u_protocol base) (u_host base) pre query fragment)
  | _ =>
      Ok (mkParts (u_protocol base) (u_host base) (dirname (u_path base) ++ pre)
            query fragment)
  end.

Definition is_special (scheme : string) : bool :=
  String.eqb scheme "http" || String.eqb scheme "https".

Definition parse (input : string) (base : option parts) : result parts :=
  let (pre0, rest) := break (one_of "?#") input in
  let (query, fragment) := break (is_char "#") rest in
  let pre := map_string (fun c => if is_char "\" c then "/"%char else c) pre0 in
  match split_scheme pre with
  | Some (scheme, after) =>
      if is_special scheme then
        let proto := scheme ++ ":" in
        match base with
        | Some b =>
            if String.eqb proto (u_protocol b) && negb (String.prefix "//" after)
            then relative b after query fragment
            else authority proto (drop_while is_slash after) query fragment
        | None => authority proto (drop_while is_slash after) query fragment
        end
      else Err InvalidURL
  | None =>
      match base with
      | Some b => relative b pre query fragment
      | None => Err InvalidURL
      end
  end.

Fixpoint split_on (sep : ascii) (s : string) : list string :=
  match s with
  | EmptyString => [""]
  | String c rest =>
      if is_char sep c then "" :: split_on sep rest
      else match split_on sep rest with
           | h :: t => String c h :: t
           | [] => [String c ""]
           end
  end.

(** Decoding of a name or value of the query string. *)
Fixpoint form_decode (s : string) : string :=
  match s with
  | EmptyString => ""
  | String c rest =>
      let plain := String (if is_char "+" c then " "%char else c) (form_decode rest) in
      if is_char "%" c then
        match rest with
        | String a (String b rest') =>
            match hex_value a, hex_value b with
            | Some x, Some y => String (ascii_of_N (16 * x + y)) (form_decode rest')
            | _, _ => plain
            end
        | _ => plain
        end
      else plain
  end.

Definition query_pairs (query : string) : list (string * string) :=
  let text := match query with String "?" rest => rest | _ => query end in
  flat_map
    (fun piece =>
       match piece with
       | EmptyString => []
       | _ => let (name, v) := break (is_char "=") piece in
              [(form_decode name,
                form_decode (match v with String _ rest => rest | _ => "" end))]
       end)
    (split_on "&" text).

Fixpoint assoc (name : string) (l : list (string * string)) : option string :=
  match l with
  | [] => None
  | (k, v) :: rest => if String.eqb k name then Some v else assoc name rest
  end.

Definition getter (component : string) : string :=
  match component with
  | String _ EmptyString => ""
  | _ => component
  end.

Definition to_URL (u : parts) : URL :=
  {| href := u_protocol u ++ "//" ++ u_host u ++ u_path u ++ u_query u ++ u_fragment u;
     protocol := u_protocol u;
     host := u_host u;
     pathname := u_path u;
     search := getter (u_query u);
     hash := getter (u_fragment u);
     searchParams_get := fun name => assoc name (query_pairs (u_query u)) |}.

Definition URL_new (input : string) (base : option string) : result URL :=
  match base with
  | None =>
      match parse input None with
      | Ok u => Ok (to_URL u)
      | Err e => Err e
      end
  | Some b =>
      match parse b None with
      | Ok bu =>
          match parse input (Some bu) with
          | Ok u => Ok (to_URL u)
          | Err e => Err e
          end
      | Err e => Err e
      end
  end.






(** *** Backend *)

(** The mock server of the test suite: 200 with a JSON body that echoes
    the path and the method. *)
Definition mockServer (request : Request) : result Response :=
  match URL_new (req_url request) None with
  | Ok url =>
      Ok {| resp_body :=
              Some (JSON_stringify
                      (VObject [("message", VString "Success from mock server");
                                ("path", VString (pathname url));
                                ("method", VString (req_method request))]));
            status := 200;
            statusText := "OK";
            resp_headers := [("Content-Type", "application/json")] |}
  | Err e => Err e
  end.

Definition runtime : Runtime :=
  Build_Runtime Z (fun n => negb (n =? 0)) pretty
    JSON_parse JSON_stringify URL_new mockServer.

(** The same runtime with the network down: every outbound call is
    rejected. *)
Definition offline : Runtime :=
  Build_Runtime Z (fun n => negb (n =? 0)) pretty
    JSON_parse JSON_stringify URL_new (fun _ => Err "Network connection lost").

End Model.

(** ** Requests and stores of the test suite *)

Module Examples.

(** The entries that [beforeAll] puts into [env.ROUTING_KV]
    (test/index.spec.js). *)
Definition store : gmap string string :=
  list_to_map
    [("route:NESTLE:GDEC-01", "TARGET_A");
     ("route:PEPSI:WAREHOUSE-02", "TARGET_B");
     ("route:COCA_COLA", "TARGET_A");
     ("endpoint:TARGET_A", "https://httpbin.dev");
     ("endpoint:TARGET_B", "https://httpbin.dev");
     ("path:TARGET_A:/api/inventory", "/post");
     ("path:TARGET_B:/api/orders", "/post")].

Definition env : Env := Env_of_map store.

(** Variations of that store. *)
Definition store_empty_route : gmap string string :=
  <["route:NESTLE:GDEC-01" := ""]> (<["route:NESTLE" := "TARGET_B"]> store).

Definition store_empty_endpoint : gmap string string :=
  <["endpoint:TARGET_A" := ""]> store.

Definition store_empty_path : gmap string string :=
  <["path:TARGET_A:/api/inventory" := ""]> store.


Definition POST (url : string) (body : option string) : Request :=
  mkRequest url "POST" [("Content-Type", "application/json")] body.

Definition GET (url : string) : Request := mkRequest url "GET" [] None.

(** [JSON.stringify({ data: JSON.stringify(payload) })]. *)
Definition wrap (payload : value Z) : string :=
  Model.JSON_stringify (VObject [("data", VString (Model.JSON_stringify payload))]).

Definition nestle : value Z :=
  VObject [("customerId", VString "NESTLE");
           ("warehouseId", VString "GDEC-01");
           ("docNo", VString "123")].


(** "should use path mapping when configured". *)
Definition inventory : Request :=
  POST "http://example.com/api/inventory" (Some (wrap nestle)).



(** "should return 400 when data field is missing". *)
Definition post_without_data : Request :=
  POST "http://example.com/api/test"
    (Some (Model.JSON_stringify (VObject [("foo", VString "bar")]))).

(** "should return 400 when data field contains invalid JSON". *)
Definition post_invalid_data : Request :=
  POST "http://example.com/api/test"
    (Some (Model.JSON_stringify (VObject [("data", VString "not valid json{")]))).

(** "should return 405 for unsupported HTTP methods". *)
Definition delete : Request :=
  mkRequest "http://example.com/api/test" "DELETE" [] None.

(** A body that is the JSON literal [null], and one whose [data] is the
    empty string. *)
Definition post_null : Request := POST "http://example.com/api/test" (Some "null").

Definition post_empty_data : Request :=
  POST "http://example.com/api/test"
    (Some (Model.JSON_stringify (VObject [("data", VString "")]))).


(** [new URL(input)] in the model. *)
Definition parsed (input : string) : URL :=
  match Model.URL_new input None with
  | Ok url => url
  | Err _ => mkURL "" "" "" "" "" "" (fun _ => None)
  end.

(** "should return 400 when request body is empty". *)
Definition post_empty : Request := POST "http://example.com/api/test" None.

(** Bodies whose [data] decodes to [null] and to a number. *)
Definition post_data_null : Request :=
  POST "http://example.com/api/test"
    (Some (Model.JSON_stringify (VObject [("data", VString "null")]))).

Definition post_data_number : Request :=
  POST "http://example.com/api/test"
    (Some (Model.JSON_stringify (VObject [("data", VString "42")]))).

(** "should return 404 when no routing found for customer/warehouse". *)
Definition post_unknown : Request :=
  POST "http://example.com/api/test"
    (Some (wrap (VObject [("customerId", VString "UNKNOWN");
                          ("warehouseId", VString "UNKNOWN");
                          ("docNo", VString "123")]))).

(** "should fallback to customer-level routing when warehouse-specific not
    found". *)
Definition coca_cola : value Z :=
  VObject [("customerId", VString "COCA_COLA");
           ("warehouseId", VString "ANY_WAREHOUSE");
           ("docNo", VString "123")].

Definition post_coca_cola : Request :=
  POST "http://example.com/post" (Some (wrap coca_cola)).

(** A GET without [warehouseId] for an unknown customer. *)
Definition get_unknown : Request :=
  GET "http://example.com/api/status?customerId=UNKNOWN".

(** Stores with the endpoint of TARGET_A removed, and replaced by a string
    that is not a URL. *)
Definition store_without_endpoint : gmap string string :=
  base.delete "endpoint:TARGET_A" store.

Definition store_bad_endpoint : gmap string string :=
  <["endpoint:TARGET_A" := "backend.internal"]> store.

(** A namespace whose reads of endpoint keys are rejected. *)
Definition env_endpoint_down : Env :=
  {| ROUTING_KV_get := fun key =>
       if starts_with "endpoint:" key then Err "KV GET failed: 503 Service Unavailable"
       else Ok (store !! key) |}.

(** A store that differs from [store] on keys the inventory request does
    not read. *)
Definition store_other_customers : gmap string string :=
  <["route:PEPSI:WAREHOUSE-02" := "TARGET_A"]> (base.delete "route:COCA_COLA" store).

End Examples.

(** * Proofs *)

(** ** Strings *)

Lemma append_cons c (a b : string) : String c a ++ b = String c (a ++ b).
Proof. reflexivity. Qed.

Lemma append_nil (b : string) : "" ++ b = b.
Proof. reflexivity. Qed.

Lemma append_assoc (a b c : string) : (a ++ b) ++ c = a ++ b ++ c.
Proof.
  induction a as [|x a IH]; [reflexivity|].
  rewrite !append_cons, IH. reflexivity.
Qed.


Lemma starts_with_app p s : starts_with p (p ++ s) = true.
Proof. induction p as [|a p IH]; simpl; [reflexivity|]. rewrite Ascii.eqb_refl. exact IH. Qed.

Lemma starts_with_inv p : forall s, starts_with p s = true -> exists rest, s = p ++ rest.
Proof.
  induction p as [|a p IH]; intros s H; simpl in *.
  - exists s. reflexivity.
  - destruct s as [|b s]; [discriminate|].
    apply andb_true_iff in H as [Hab Hp]. apply Ascii.eqb_eq in Hab. subst b.
    destruct (IH _ Hp) as [rest ->]. exists rest. reflexivity.
Qed.

Lemma contains_here needle text : starts_with needle text = true -> contains needle text = true.
Proof. intros H. destruct text; simpl; rewrite H; reflexivity. Qed.

Lemma contains_Contains needle text : contains needle text = true <-> Contains needle text.
Proof.
  split.
  - induction text as [|c text IH]; simpl; intros H.
    + rewrite orb_false_r in H. apply starts_with_inv in H as [rest ->].
      exists "", rest. reflexivity.
    + apply orb_true_iff in H as [H|H].
      * apply starts_with_inv in H as [rest ->]. exists "", rest. reflexivity.
      * destruct (IH H) as (pre & post & ->). exists (String c pre), post. reflexivity.
  - intros (pre & post & ->). induction pre as [|c pre IH].
    + change ("" ++ needle ++ post) with (needle ++ post).
      apply contains_here, starts_with_app.
    + change (String c pre ++ needle ++ post) with (String c (pre ++ needle ++ post)).
      simpl. rewrite IH. apply orb_true_r.
Qed.

Lemma append_not_self (s : string) c t : s <> s ++ String c t.
Proof.
  induction s as [|x s IH]; [discriminate|].
  rewrite append_cons. intros H. injection H as H. exact (IH H).
Qed.

Lemma eqb_nonempty (s : string) : s <> "" -> String.eqb s "" = false.
Proof. intros H. destruct (String.eqb_spec s ""); [contradiction|reflexivity]. Qed.

Lemma route_keys_differ c w :
  KV_get ("route:" ++ c) <> KV_get ("route:" ++ c ++ ":" ++ w).
Proof. intros H. injection H as H. exact (append_not_self c ":"%char w H). Qed.

Lemma append_inj_l (p a b : string) : p ++ a = p ++ b -> a = b.
Proof.
  induction p as [|c p IH]; [exact (fun H => H)|].
  rewrite !append_cons. intros H. injection H as H. exact (IH H).
Qed.

Lemma not_Contains needle text : contains needle text = false -> ~ Contains needle text.
Proof. intros H Hc. apply contains_Contains in Hc. congruence. Qed.

(** ** The URL model on plain paths *)

Module ModelFacts.
Import Model.










End ModelFacts.

(** ** The JSON model on error bodies *)

Lemma parse_chars_escape c (tail : string) :
  Model.parse_chars (Model.escape c ++ tail) =
  match Model.parse_chars tail with
  | Some (text, after) => Some (String c text, after)
  | None => None
  end.
Proof. destruct c as [[] [] [] [] [] [] [] []]; reflexivity. Qed.

(** Reading back a quoted string. *)
Lemma parse_chars_quote (s rest : string) :
  Model.parse_chars (Model.quote_chars s ++ String Model.dquote rest) = Some (s, rest).
Proof.
  induction s as [|c s IH]; [reflexivity|].
  change (Model.quote_chars (String c s)) with (Model.escape c ++ Model.quote_chars s).
  rewrite append_assoc, parse_chars_escape, IH. reflexivity.
Qed.

Lemma stringify_error_object message :
  Model.JSON_stringify (error_object (RT:=Model.runtime) message) =
  String "{" (String Model.dquote ("error" ++
    String Model.dquote (String ":" (String Model.dquote "")))) ++
  Model.quote_chars message ++ String Model.dquote "}".
Proof.
  unfold Model.JSON_stringify, error_object, Model.stringify, Model.quote, Model.join_comma.
  change (Model.quote_chars "error") with "error".
  repeat (rewrite ?append_cons, ?append_nil, ?append_assoc). reflexivity.
Qed.

Lemma error_object_inj a b :
  Model.JSON_stringify (error_object (RT:=Model.runtime) a) =
  Model.JSON_stringify (error_object (RT:=Model.runtime) b) -> a = b.
Proof.
  rewrite !stringify_error_object. intros H. apply append_inj_l in H.
  apply (f_equal Model.parse_chars) in H. rewrite !parse_chars_quote in H.
  congruence.
Qed.

Lemma error_response_inj a b code code' :
  json_response (RT:=Model.runtime) (error_object a) code =
  json_response (RT:=Model.runtime) (error_object b) code' -> a = b /\ code = code'.
Proof.
  intros H. split; [|exact (f_equal status H)].
  apply error_object_inj.
  exact (f_equal (fun r => match resp_body r with Some text => text | None => "" end) H).
Qed.

(** ** The worker on every runtime *)

Section WorkerFacts.
Context {RT : Runtime}.

Abbreviation value := (value number).



Lemma bind_Normal {A B} (a : A) l (k : A -> M B) :
  bind (Normal a, l) k = (fst (k a), (l ++ snd (k a))%list).
Proof. unfold bind. destruct (k a). reflexivity. Qed.

Lemma bind_lift_Ok {A B} (r : result A) (a : A) (k : A -> M B) :
  r = Ok a -> bind (lift r) k = k a.
Proof. intros ->. unfold lift, ret. rewrite bind_Normal. destruct (k a). reflexivity. Qed.

Lemma bind_lift_Err {A B} (r : result A) m (k : A -> M B) :
  r = Err m -> bind (lift r) k = (Throw m, []).
Proof. intros ->. reflexivity. Qed.

Lemma bind_ret {A B} (a : A) (k : A -> M B) : bind (ret a) k = k a.
Proof. unfold ret. rewrite bind_Normal. destruct (k a). reflexivity. Qed.

Lemma ToString_VString s : ToString (VString s) = Ok s.
Proof. reflexivity. Qed.

Lemma ToBoolean_VString s : ToBoolean (VString s) = negb (String.eqb s "").
Proof. reflexivity. Qed.

Lemma ToBoolean_VString_true s : s <> "" -> ToBoolean (VString s) = true.
Proof. intros H. simpl. destruct (String.eqb_spec s ""); [contradiction|reflexivity]. Qed.

Lemma extract_trace request url : snd (extract request url) = [].
Proof.
  unfold extract, bind, try_catch, lift, ret, return_, throw.
  repeat case_match; simplify_eq/=; reflexivity.
Qed.

Lemma extract_Return request url r :
  fst (extract request url) = Return r ->
  exists f, r = failure_response f /\ not_internal f.
Proof.
  unfold extract, bind, try_catch, lift, ret, return_, throw.
  repeat case_match; simplify_eq/=; intros; simplify_eq/=.
  - exists MissingDataField. split; [reflexivity|exact I].
  - exists InvalidDataField. split; [reflexivity|exact I].
  - exists InvalidBody. split; [reflexivity|exact I].
  - exists (UnsupportedMethod (req_method request)). split; [reflexivity|exact I].
Qed.

Lemma ROUTING_KV_get_eq env key :
  ROUTING_KV_get_ env key = (kv_completion (ROUTING_KV_get env key), [KV_get key]).
Proof. reflexivity. Qed.

Lemma kv_completion_from_store r : from_store (kv_completion r).
Proof. destruct r as [[s|]|]; simpl; eauto. Qed.

Lemma lookup_target_spec env customerId warehouseId :
  from_store (fst (lookup_target env customerId warehouseId)) /\
  Forall is_KV_get (snd (lookup_target env customerId warehouseId)).
Proof.
  unfold lookup_target, ROUTING_KV_get_, bind, lift, ret, throw.
  repeat case_match; simplify_eq/=;
    (split; [first [exact I | left; reflexivity | right; eexists; reflexivity]
            | repeat constructor]).
Qed.

Lemma lookup_path_spec env targetKey sourcePath :
  match fst (lookup_path env targetKey sourcePath) with
  | Normal v => exists s, v = VString s
  | Return _ => False
  | Throw _ => True
  end /\
  Forall is_KV_get (snd (lookup_path env targetKey sourcePath)).
Proof.
  unfold lookup_path, ROUTING_KV_get_, bind, lift, ret, throw.
  repeat case_match; simplify_eq/=;
    (split; [first [exact I | eexists; reflexivity] | repeat constructor]).
Qed.

Lemma build_forward_spec request url requestBody e d :
  (forall r, fst (build_forward request url requestBody e d) <> Return r) /\
  snd (build_forward request url requestBody e d) = [].
Proof.
  unfold build_forward, bind, lift, ret, throw.
  repeat case_match; simplify_eq/=; split; auto; intros; discriminate.
Qed.


Lemma outcome_prefix l (m : M Response) :
  Forall is_KV_get l -> outcome m -> outcome (fst m, (l ++ snd m)%list).
Proof.
  intros Hl. destruct m as [[r|r|m] l']; simpl.
  - intros (kv & fwd & -> & Hkv & Hf). exists (l ++ kv)%list, fwd.
    rewrite <- app_assoc. split; [reflexivity|]. split; [|assumption].
    apply Forall_app; auto.
  - intros [Hf Hl']. split; [assumption|]. apply Forall_app; auto.
  - intros [Hl'|(kv & fwd & -> & Hkv & Hf)].
    + left. apply Forall_app; auto.
    + right. exists (l ++ kv)%list, fwd.
      rewrite <- app_assoc. split; [reflexivity|]. split; [|assumption].
      apply Forall_app; auto.
Qed.

Lemma outcome_failure f : not_internal f -> outcome (Return (failure_response f), []).
Proof. intros H. split; [eauto|constructor]. Qed.

Lemma outcome_Throw m : outcome (Throw m, []).
Proof. left. constructor. Qed.

Lemma relay_eta (r : Response) :
  {| resp_body := resp_body r; status := status r; statusText := statusText r;
     resp_headers := resp_headers r |} = r.
Proof. destruct r. reflexivity. Qed.

Lemma forward_outcome request env url requestBody t e :
  outcome (forward request env url requestBody (VString t) (VString e)).
Proof.
  unfold forward.
  destruct (lookup_path_spec env (VString t) (pathname url)) as [Hv Hl].
  destruct (lookup_path env (VString t) (pathname url)) as [[d|r|m] l];
    simpl in Hv, Hl.
  - rewrite bind_Normal. apply outcome_prefix; [assumption|].
    cbv beta. rewrite ToString_VString. unfold lift. rewrite bind_ret.
    destruct (build_forward_spec request url requestBody e d) as [Hr Hnil].
    destruct (build_forward request url requestBody e d) as [[fwd|r|m] l'];
      simpl in Hr, Hnil.
    + subst l'. rewrite bind_Normal. simpl. unfold fetch_.
      destruct (global_fetch fwd) as [resp|m] eqn:Hf; simpl.
      * exists [], fwd. rewrite relay_eta. auto.
      * right. exists [], fwd. auto.
    + destruct (Hr r). reflexivity.
    + subst l'. left. constructor.
  - destruct Hv.
  - left. assumption.
Qed.

Lemma missing_route_outcome customerId warehouseId :
  outcome
    (c <- lift (ToString customerId) ;;
     suffix <- (if ToBoolean warehouseId then
                  w <- lift (ToString warehouseId) ;;
                  ret (", warehouseId: " ++ w)
                else ret "") ;;
     return_ (json_response
                (error_object ("No routing found for customerId: " ++ c ++ suffix))
                404)).
Proof.
  destruct (ToString customerId) as [c|m]; [|apply outcome_Throw].
  unfold lift at 1. rewrite bind_ret.
  destruct (ToBoolean warehouseId).
  - destruct (ToString warehouseId) as [w|m]; [|apply outcome_Throw].
    unfold lift. rewrite !bind_ret.
    apply (outcome_failure (RoutingNotFound c (Some w))). exact I.
  - rewrite bind_ret. apply (outcome_failure (RoutingNotFound c None)). exact I.
Qed.

Lemma handle_outcome request env : outcome (handle request env).
Proof.
  unfold handle.
  destruct (URL_new (req_url request) None) as [url|m]; [|apply outcome_Throw].
  unfold lift at 1. rewrite bind_ret.
  pose proof (extract_trace request url) as Ht.
  pose proof (extract_Return request url) as Hr.
  destruct (extract request url) as [[[[customerId warehouseId] requestBody]|r|m] l];
    simpl in Ht, Hr; subst l.
  2: { destruct (Hr r eq_refl) as (f & -> & Hf). apply outcome_failure, Hf. }
  2: { apply outcome_Throw. }
  rewrite bind_Normal. apply (outcome_prefix []); [constructor|]. cbv beta iota.
  destruct (ToBoolean customerId); cbn [negb].
  2: { apply (outcome_failure MissingParameter). exact I. }
  destruct (lookup_target_spec env customerId warehouseId) as [Hs Hl].
  destruct (lookup_target env customerId warehouseId) as [[targetKey|r|m] l];
    simpl in Hs, Hl.
  2: { destruct Hs. }
  2: { left. assumption. }
  rewrite bind_Normal. apply outcome_prefix; [assumption|].
  cbv beta.
  destruct (ToBoolean targetKey) eqn:Htk; cbn [negb kv_completion].
  2: { apply missing_route_outcome. }
  destruct Hs as [->|[t ->]]; [discriminate|].
  rewrite ToString_VString. unfold lift at 1. rewrite bind_ret.
    rewrite ROUTING_KV_get_eq.
  destruct (ROUTING_KV_get env ("endpoint:" ++ t)) as [[e|]|m]; cbn [kv_completion].
  3: { left. repeat constructor. }
  all: rewrite bind_Normal; apply (outcome_prefix [_]); [repeat constructor|];
    cbv beta.
  2: { cbn [ToBoolean negb]. unfold lift. rewrite bind_ret.
       apply (outcome_failure (EndpointNotFound t)). exact I. }
  destruct (ToBoolean (VString e)) eqn:He; cbn [negb].
  2: { unfold lift. rewrite bind_ret.
       apply (outcome_failure (EndpointNotFound t)). exact I. }
  apply forward_outcome.
Qed.


Lemma not_KV_Fetch l fwd : Forall is_KV_get l -> ~ In (Fetch fwd) l.
Proof.
  intros H Hin. rewrite Forall_forall in H. apply list_elem_of_In in Hin.
  exact (H _ Hin).
Qed.

Lemma In_Fetch_last kv fwd fwd' :
  Forall is_KV_get kv -> In (Fetch fwd) (kv ++ [Fetch fwd'])%list -> fwd = fwd'.
Proof.
  intros Hkv Hin. apply in_app_or in Hin as [Hin|Hin].
  - destruct (not_KV_Fetch _ _ Hkv Hin).
  - destruct Hin as [Heq|[]]. congruence.
Qed.


Lemma fetch_outcome request env :
  (exists kv fwd, snd (fetch request env) = (kv ++ [Fetch fwd])%list /\
                  Forall is_KV_get kv /\
                  global_fetch fwd = Ok (fst (fetch request env))) \/
  (exists f, fst (fetch request env) = failure_response f).
Proof.
  unfold fetch. pose proof (handle_outcome request env) as H.
  destruct (handle request env) as [[r|r|m] log]; simpl in *.
  - left. exact H.
  - right. destruct H as [(f & -> & _) _]. eauto.
  - right. exists (Internal m). reflexivity.
Qed.

(** C8, as amended.  Whatever the request and the store, the worker either
    relays the backend's answer to its one outbound call or returns a failure
    response: a JSON object with header Content-Type: application/json, the
    status fixed by the error class (400, 404, 405 or 500) and an [error]
    field that carries the classified message.  For 400, 404 and 405 the
    object is exactly [{error: message}]; the 500 response has a second
    field, [message], with the text of the caught exception. *)
Theorem failure_response_shape request env :
  (exists forwardRequest,
      In (Fetch forwardRequest) (snd (fetch request env)) /\
      global_fetch forwardRequest = Ok (fst (fetch request env))) \/
  (exists f,
      fst (fetch request env) = failure_response f /\
      resp_body (fst (fetch request env)) = Some (JSON_stringify (failure_object f)) /\
      resp_headers (fst (fetch request env)) = [("Content-Type", "application/json")] /\
      status (fst (fetch request env)) = failure_status f /\
      (failure_status f = 400 \/ failure_status f = 404 \/ failure_status f = 405 \/
       failure_status f = 500) /\
      Get (failure_object f) "error" = Ok (VString (failure_message f)) /\
      (failure_status f <> 500 -> failure_object f = error_object (failure_message f)) /\
      (failure_status f = 500 ->
       exists message,
         failure_object f = VObject [("error", VString "Internal server error");
                                     ("message", VString message)])).
Proof.
  destruct (fetch_outcome request env) as [(kv & fwd & Hlog & Hkv & Hf)|[f Hf]].
  - left. exists fwd. split; [|assumption]. rewrite Hlog.
    apply in_or_app. right. left. reflexivity.
  - right. exists f. rewrite Hf. repeat split.
    + destruct f; simpl; auto.
    + destruct f; reflexivity.
    + destruct f; simpl; intros H; try reflexivity. contradiction.
    + destruct f; simpl; intros H; try discriminate. eauto.
Qed.

(** C10.  For every POST request whose body is the JSON literal [null]
    (which parses), reading [data] from the parse result throws; the
    exception reaches the outermost [catch] and the response is 500,
    "Internal server error", not one of the 400 classifications. *)
Theorem null_body_internal_error request env url :
  URL_new (req_url request) None = Ok url ->
  req_method request = "POST" ->
  request_json request = Ok VNull ->
  fetch request env = (internal_error (TypeError_read "null" "data"), []) /\
  status (fst (fetch request env)) = 500 /\
  fst (fetch request env) = failure_response (Internal (TypeError_read "null" "data")) /\
  forall f, failure_status f = 400 -> fst (fetch request env) <> failure_response f.
Proof.
  intros Hurl Hm Hj.
  assert (E : fetch request env = (internal_error (TypeError_read "null" "data"), [])).
  { unfold fetch, handle. rewrite (bind_lift_Ok _ url) by assumption.
    unfold extract. rewrite Hm. cbn [String.eqb Ascii.eqb Bool.eqb].
    rewrite Hj. reflexivity. }
  rewrite E. repeat split. intros f Hf Heq.
  apply (f_equal status) in Heq. simpl in Heq. lia.
Qed.

(** index.js:67-75 *)
Lemma handle_missing_customerId request env url customerId warehouseId requestBody :
  URL_new (req_url request) None = Ok url ->
  fst (extract request url) = Normal (customerId, warehouseId, requestBody) ->
  ToBoolean customerId = false ->
  handle request env = (Return (failure_response MissingParameter), []).
Proof.
  intros Hurl He Hc. unfold handle. rewrite (bind_lift_Ok _ url) by assumption.
  pose proof (extract_trace request url) as Ht.
  destruct (extract request url) as [c l]. simpl in He, Ht. subst c l.
  rewrite bind_Normal. cbv beta iota. rewrite Hc. reflexivity.
Qed.


Lemma is_error_intro needle message code before after :
  message = before ++ needle ++ after ->
  is_error (json_response (error_object message) code) code needle.
Proof. intros ->. eexists. split; [reflexivity|]. eexists _, _. reflexivity. Qed.

(** index.js:24-53 on a POST whose body parses. *)
Lemma extract_POST request url requestBody :
  req_method request = "POST" ->
  request_json request = Ok requestBody ->
  extract request url =
    (data <- lift (Get requestBody "data") ;;
     if negb (ToBoolean data) then
       return_ (json_response (error_object "Missing data field in request body") 400)
     else
       parsed <-
         try_catch (lift (parse_data data))
           (fun parseError =>
              return_ (json_response (error_object "Invalid JSON in data field") 400)) ;;
       let '(customerId, warehouseId) := parsed in
       ret (customerId, warehouseId, requestBody)).
Proof.
  intros Hm Hj. unfold extract. rewrite Hm. cbn [String.eqb Ascii.eqb Bool.eqb].
  rewrite Hj. unfold lift at 1. unfold try_catch, ret. rewrite bind_Normal.
  cbn [fst snd app]. destruct (bind _ _). reflexivity.
Qed.

Lemma extract_GET request url :
  req_method request = "GET" ->
  extract request url =
    (Normal (match searchParams_get url "customerId" with
             | Some s => VString s | None => VNull end,
             match searchParams_get url "warehouseId" with
             | Some s => VString s | None => VNull end,
             VUndefined), []).
Proof. intros Hm. unfold extract. rewrite Hm. reflexivity. Qed.

Lemma fetch_Return request env url r :
  URL_new (req_url request) None = Ok url ->
  extract request url = (Return r, []) ->
  fetch request env = (r, []).
Proof.
  intros Hurl He. unfold fetch, handle. rewrite (bind_lift_Ok _ url) by assumption.
  rewrite He. reflexivity.
Qed.

Lemma Get_absent (body : value) name :
  body <> VNull -> body <> VUndefined -> has_own body name = false ->
  Get body name = Ok VUndefined.
Proof.
  intros Hn Hu Ho. destruct body; try contradiction; try reflexivity.
  simpl in *. destruct (own_property properties name); [discriminate|reflexivity].
Qed.

(** C7, as amended.  For every POST request whose body parses as JSON: if
    the parsed value is not [null] and has no [data] field, the result is
    status 400 with "Missing data field"; and if it has a non-empty [data]
    string that does not parse as JSON, the result is status 400 with
    "Invalid JSON in data field". *)
Theorem post_body_classification request env url requestBody :
  URL_new (req_url request) None = Ok url ->
  req_method request = "POST" ->
  request_json request = Ok requestBody ->
  (requestBody <> VNull -> requestBody <> VUndefined ->
   has_own requestBody "data" = false ->
   fetch request env =
     (json_response (error_object "Missing data field in request body") 400, []) /\
   is_error (fst (fetch request env)) 400 "Missing data field") /\
  (forall text,
     Get requestBody "data" = Ok (VString text) -> text <> "" ->
     (exists e, JSON_parse text = Err e) ->
     fetch request env =
       (json_response (error_object "Invalid JSON in data field") 400, []) /\
     is_error (fst (fetch request env)) 400 "Invalid JSON in data field").
Proof.
  intros Hurl Hm Hj. split.
  - intros Hn Hu Ho.
    assert (E : fetch request env =
      (json_response (error_object "Missing data field in request body") 400, [])).
    { apply (fetch_Return _ _ url); [assumption|].
      rewrite (extract_POST _ _ requestBody) by assumption.
      rewrite (bind_lift_Ok _ VUndefined) by (apply Get_absent; assumption).
      reflexivity. }
    rewrite E. split; [reflexivity|].
    apply (is_error_intro _ _ _ "" " in request body"). reflexivity.
  - intros text Hd Hne [e He].
    assert (E : fetch request env =
      (json_response (error_object "Invalid JSON in data field") 400, [])).
    { apply (fetch_Return _ _ url); [assumption|].
      rewrite (extract_POST _ _ requestBody) by assumption.
      rewrite (bind_lift_Ok _ (VString text)) by assumption.
      rewrite ToBoolean_VString_true by assumption. cbn [negb].
      unfold parse_data. rewrite ToString_VString, He. reflexivity. }
    rewrite E. split; [reflexivity|].
    apply (is_error_intro _ _ _ "" ""). reflexivity.
Qed.

Lemma bind_kv {B} env key (k : value -> M B) :
  bind (ROUTING_KV_get_ env key) k =
  match kv_completion (ROUTING_KV_get env key) with
  | Normal v => (fst (k v), KV_get key :: snd (k v))
  | Return r => (Return r, [KV_get key])
  | Throw e => (Throw e, [KV_get key])
  end.
Proof.
  rewrite ROUTING_KV_get_eq.
  destruct (kv_completion (ROUTING_KV_get env key)); [|reflexivity..].
  rewrite bind_Normal. reflexivity.
Qed.

(** index.js:81-83 finds a non-empty value: the fallback is not read. *)
Lemma lookup_target_warehouse env c w t1 :
  w <> "" ->
  ROUTING_KV_get env ("route:" ++ c ++ ":" ++ w) = Ok (Some t1) -> t1 <> "" ->
  lookup_target env (VString c) (VString w) =
    (Normal (VString t1), [KV_get ("route:" ++ c ++ ":" ++ w)]).
Proof.
  intros Hw Hk Ht. unfold lookup_target.
  rewrite (ToBoolean_VString_true w) by assumption.
  rewrite !ToString_VString. unfold lift. rewrite !bind_ret.
  rewrite ROUTING_KV_get_eq, Hk. cbn [kv_completion].
  rewrite bind_Normal. cbv beta.
  rewrite (ToBoolean_VString_true t1) by assumption. reflexivity.
Qed.

(** index.js:81-88 when the warehouse-specific read is absent or empty. *)
Lemma lookup_target_fallback env c w :
  w <> "" ->
  ROUTING_KV_get env ("route:" ++ c ++ ":" ++ w) = Ok None \/
  ROUTING_KV_get env ("route:" ++ c ++ ":" ++ w) = Ok (Some "") ->
  lookup_target env (VString c) (VString w) =
    (kv_completion (ROUTING_KV_get env ("route:" ++ c)),
     [KV_get ("route:" ++ c ++ ":" ++ w); KV_get ("route:" ++ c)]).
Proof.
  intros Hw Hk. unfold lookup_target.
  rewrite (ToBoolean_VString_true w) by assumption.
  rewrite !ToString_VString. unfold lift. rewrite !bind_ret.
  rewrite ROUTING_KV_get_eq.
  destruct Hk as [-> | ->]; cbn [kv_completion]; rewrite bind_Normal; cbv beta;
    cbn [ToBoolean String.eqb negb lift]; reflexivity.
Qed.

(** index.js:81-88 when [warehouseId] is falsy: only the customer-level key
    is read. *)
Lemma lookup_target_skipped env c warehouseId :
  ToBoolean warehouseId = false ->
  lookup_target env (VString c) warehouseId =
    (kv_completion (ROUTING_KV_get env ("route:" ++ c)), [KV_get ("route:" ++ c)]).
Proof.
  intros Hw. unfold lookup_target. rewrite Hw, bind_ret.
  cbn [ToBoolean negb]. rewrite ToString_VString. unfold lift. rewrite bind_ret.
  reflexivity.
Qed.

(** The customer-level key is read only after a skipped, absent or empty
    warehouse-specific read. *)
Lemma lookup_target_fallback_only env customerId warehouseId c :
  ToString customerId = Ok c ->
  In (KV_get ("route:" ++ c)) (snd (lookup_target env customerId warehouseId)) ->
  ToBoolean warehouseId = false \/
  exists w, ToString warehouseId = Ok w /\
            (ROUTING_KV_get env ("route:" ++ c ++ ":" ++ w) = Ok None \/
             ROUTING_KV_get env ("route:" ++ c ++ ":" ++ w) = Ok (Some "")).
Proof.
  intros Hc. unfold lookup_target.
  destruct (ToBoolean warehouseId) eqn:Hw; [|auto].
  rewrite Hc. unfold lift at 1. rewrite bind_ret.
  destruct (ToString warehouseId) as [w|m] eqn:Hws.
  2: { simpl. intros []. }
  unfold lift at 1. rewrite bind_ret.
  assert (Hne : forall l, In (KV_get ("route:" ++ c)) (KV_get ("route:" ++ c ++ ":" ++ w) :: l) ->
                          In (KV_get ("route:" ++ c)) l).
  { intros l [H|H]; [|exact H]. symmetry in H. destruct (route_keys_differ _ _ H). }
  rewrite bind_kv.
  destruct (ROUTING_KV_get env ("route:" ++ c ++ ":" ++ w)) as [[t|]|m] eqn:Hk;
    cbn [kv_completion fst snd]; intros Hin; apply Hne in Hin.
  - destruct (String.eqb_spec t ""); [subst; right; eauto|].
    rewrite ToBoolean_VString_true in Hin by assumption. destruct Hin.
  - right. eauto.
  - destruct Hin.
Qed.

Lemma bind_trace_prefix {A B} (m : M A) (k : A -> M B) :
  exists rest, snd (bind m k) = (snd m ++ rest)%list.
Proof.
  destruct m as [[a|r|e] l]; simpl.
  - destruct (k a) as [c l']. eauto.
  - exists []. rewrite app_nil_r. reflexivity.
  - exists []. rewrite app_nil_r. reflexivity.
Qed.

(** index.js:18-100 up to the endpoint read, once the target key is known. *)
Lemma handle_target request env url customerId warehouseId requestBody t kvlog :
  URL_new (req_url request) None = Ok url ->
  extract request url = (Normal (customerId, warehouseId, requestBody), []) ->
  ToBoolean customerId = true ->
  lookup_target env customerId warehouseId = (Normal (VString t), kvlog) ->
  t <> "" ->
  handle request env =
    match kv_completion (ROUTING_KV_get env ("endpoint:" ++ t)) with
    | Normal targetEndpoint =>
        if ToBoolean targetEndpoint then
          (fst (forward request env url requestBody (VString t) targetEndpoint),
           kvlog ++ KV_get ("endpoint:" ++ t) ::
             snd (forward request env url requestBody (VString t) targetEndpoint))%list
        else (Return (failure_response (EndpointNotFound t)),
              kvlog ++ [KV_get ("endpoint:" ++ t)])%list
    | Return r => (Return r, kvlog ++ [KV_get ("endpoint:" ++ t)])%list
    | Throw e => (Throw e, kvlog ++ [KV_get ("endpoint:" ++ t)])%list
    end.
Proof.
  intros Hurl He Hc Hl Ht. unfold handle.
  rewrite (bind_lift_Ok _ url) by assumption.
  rewrite He, bind_Normal. cbv beta iota. rewrite Hc. cbn [negb fst snd app].
  rewrite Hl, bind_Normal. cbv beta.
  rewrite ToBoolean_VString_true by assumption. cbn [negb].
  rewrite !ToString_VString. cbn [lift]. rewrite !bind_ret, !bind_kv.
  destruct (kv_completion (ROUTING_KV_get env ("endpoint:" ++ t))) as [v|r|m];
    cbn [fst snd]; [|reflexivity..].
  destruct (ToBoolean v); cbn [negb]; reflexivity.
Qed.

Lemma extract_pair request url x :
  fst (extract request url) = x -> extract request url = (x, []).
Proof.
  intros <-. rewrite <- (extract_trace request url). apply surjective_pairing.
Qed.

Lemma fetch_trace request env : snd (fetch request env) = snd (handle request env).
Proof. unfold fetch. destruct (handle request env) as [[r|r|m] l]; reflexivity. Qed.

(** C1, as amended.  For every request with non-empty [customerId] and
    non-empty [warehouseId], when the store holds a non-empty value for
    "route:{customerId}:{warehouseId}" the resolved target key is that value,
    whatever "route:{customerId}" holds: the customer-level key is not read,
    and the next read is the endpoint of the warehouse-specific target.  The
    customer-level key is read only when the warehouse-specific read is
    skipped ([warehouseId] falsy) or returns absent or the empty string. *)
Theorem warehouse_route_priority request env url c w requestBody t1 :
  URL_new (req_url request) None = Ok url ->
  fst (extract request url) = Normal (VString c, VString w, requestBody) ->
  c <> "" -> w <> "" ->
  ROUTING_KV_get env ("route:" ++ c ++ ":" ++ w) = Ok (Some t1) ->
  t1 <> "" ->
  lookup_target env (VString c) (VString w) =
    (Normal (VString t1), [KV_get ("route:" ++ c ++ ":" ++ w)]) /\
  (exists rest,
     snd (fetch request env) =
       KV_get ("route:" ++ c ++ ":" ++ w) :: KV_get ("endpoint:" ++ t1) :: rest) /\
  ~ In (KV_get ("route:" ++ c)) (snd (lookup_target env (VString c) (VString w))) /\
  (forall env' warehouseId,
     In (KV_get ("route:" ++ c)) (snd (lookup_target env' (VString c) warehouseId)) ->
     ToBoolean warehouseId = false \/
     exists w', ToString warehouseId = Ok w' /\
                (ROUTING_KV_get env' ("route:" ++ c ++ ":" ++ w') = Ok None \/
                 ROUTING_KV_get env' ("route:" ++ c ++ ":" ++ w') = Ok (Some ""))).
Proof.
  intros Hurl He Hc Hw Hk Ht.
  pose proof (lookup_target_warehouse env c w t1 Hw Hk Ht) as Hl.
  split; [exact Hl|]. split; [|split].
  - rewrite fetch_trace.
    rewrite (handle_target request env url _ _ _ t1 _ Hurl (extract_pair _ _ _ He)
               (ToBoolean_VString_true c Hc) Hl Ht).
    destruct (kv_completion (ROUTING_KV_get env ("endpoint:" ++ t1))) as [v|r|m];
      [destruct (ToBoolean v)|..]; cbn [app snd]; eexists; reflexivity.
  - rewrite Hl. intros [H|[]]. symmetry in H. destruct (route_keys_differ _ _ H).
  - intros env' warehouseId. apply lookup_target_fallback_only. reflexivity.
Qed.

(** index.js:111-116 *)
Lemma lookup_path_eq env t sourcePath :
  lookup_path env (VString t) sourcePath =
    (match kv_completion (ROUTING_KV_get env ("path:" ++ t ++ ":" ++ sourcePath)) with
     | Normal pathMapping =>
         Normal (if ToBoolean pathMapping then pathMapping else VString sourcePath)
     | Return r => Return r
     | Throw e => Throw e
     end, [KV_get ("path:" ++ t ++ ":" ++ sourcePath)]).
Proof.
  unfold lookup_path. rewrite ToString_VString. cbn [lift]. rewrite bind_ret, bind_kv.
  destruct (kv_completion _); reflexivity.
Qed.



(** index.js:118-136 for a destination path and a target URL. *)
Lemma forward_sent request env url requestBody t e d plog targetUrl :
  lookup_path env (VString t) (pathname url) = (Normal (VString d), plog) ->
  URL_new (d ++ search url) (Some e) = Ok targetUrl ->
  forward request env url requestBody (VString t) (VString e) =
    (match global_fetch (make_forward request requestBody targetUrl) with
     | Ok response => Normal response
     | Err m => Throw m
     end, plog ++ [Fetch (make_forward request requestBody targetUrl)])%list.
Proof.
  intros Hp Hu. unfold forward. rewrite Hp, bind_Normal. cbv beta.
  rewrite !ToString_VString. cbn [lift]. rewrite !bind_ret.
  unfold build_forward. rewrite !ToString_VString. cbn [lift]. rewrite !bind_ret.
  rewrite !(bind_lift_Ok _ targetUrl) by assumption. rewrite !bind_ret.
  unfold fetch_. destruct (global_fetch _) as [r|m]; cbn [bind fst snd ret];
    [rewrite relay_eta|]; reflexivity.
Qed.

Lemma handle_resolved request env url requestBody t e log :
  Resolved request env url requestBody t e log ->
  handle request env =
    (fst (forward request env url requestBody (VString t) (VString e)),
     (log ++ snd (forward request env url requestBody (VString t) (VString e)))%list).
Proof.
  intros [Hurl (customerId & warehouseId & kvlog & He & Hc & Hl & ->) Ht Hk Hne].
  rewrite (handle_target request env url _ _ _ t _ Hurl He Hc Hl Ht), Hk.
  cbn [kv_completion]. rewrite ToBoolean_VString_true by assumption.
  rewrite <- app_assoc. reflexivity.
Qed.













End WorkerFacts.

(** ** The worker on the model runtime *)

Section ModelRuns.
#[local] Existing Instance Model.runtime.
Import Examples.



Lemma null_body_internal_error_witness :
  Model.JSON_parse "null" = Ok VNull /\
  status (fst (fetch post_null env)) = 500.
Proof.
  split; [reflexivity|].
  apply (null_body_internal_error (RT:=Model.runtime) post_null env
           (parsed (req_url post_null)));
    [vm_compute; reflexivity | reflexivity | vm_compute; reflexivity].
Defined.

Lemma post_body_classification_witness :
  fetch post_without_data env =
    (json_response (error_object "Missing data field in request body") 400, []) /\
  fetch post_invalid_data env =
    (json_response (error_object "Invalid JSON in data field") 400, []).
Proof.
  split.
  - apply (proj1 (post_body_classification (RT:=Model.runtime) post_without_data env
                    (parsed (req_url post_without_data))
                    (VObject [("foo", VString "bar")])
                    ltac:(vm_compute; reflexivity) ltac:(reflexivity)
                    ltac:(vm_compute; reflexivity)));
      [discriminate | discriminate | reflexivity].
  - apply (proj2 (post_body_classification (RT:=Model.runtime) post_invalid_data env
                    (parsed (req_url post_invalid_data))
                    (VObject [("data", VString "not valid json{")])
                    ltac:(vm_compute; reflexivity) ltac:(reflexivity)
                    ltac:(vm_compute; reflexivity)) "not valid json{");
      [reflexivity | discriminate | eexists; vm_compute; reflexivity].
Defined.

Lemma warehouse_route_priority_witness :
  lookup_target env (VString "NESTLE") (VString "GDEC-01") =
    (Normal (VString "TARGET_A"), [KV_get "route:NESTLE:GDEC-01"]).
Proof.
  eapply (warehouse_route_priority (RT:=Model.runtime) inventory env
            (parsed (req_url inventory)) "NESTLE" "GDEC-01");
    [vm_compute; reflexivity | vm_compute; reflexivity | discriminate | discriminate
    | vm_compute; reflexivity | discriminate].
Defined.





(** C1 as stated fails: with the empty string stored under the
    warehouse-specific key and TARGET_B under the customer-level key, both
    keys hold values, the warehouse-specific read is neither skipped nor
    absent, and the target key is the customer-level TARGET_B. *)
Lemma warehouse_route_counterexample :
  let env := Env_of_map store_empty_route in
  ROUTING_KV_get env "route:NESTLE:GDEC-01" = Ok (Some "") /\
  ROUTING_KV_get env "route:NESTLE" = Ok (Some "TARGET_B") /\
  lookup_target env (VString "NESTLE") (VString "GDEC-01") =
    (Normal (VString "TARGET_B"),
     [KV_get "route:NESTLE:GDEC-01"; KV_get "route:NESTLE"]) /\
  snd (fetch inventory env) =
    [KV_get "route:NESTLE:GDEC-01"; KV_get "route:NESTLE"; KV_get "endpoint:TARGET_B";
     KV_get "path:TARGET_B:/api/inventory";
     Fetch (make_forward inventory
              (VObject [("data", VString (Model.JSON_stringify nestle))])
              (parsed "https://httpbin.dev/api/inventory"))] /\
  ~ (forall (env : Env) (c w t1 t2 : string),
       c <> "" -> w <> "" ->
       ROUTING_KV_get env ("route:" ++ c ++ ":" ++ w) = Ok (Some t1) ->
       ROUTING_KV_get env ("route:" ++ c) = Ok (Some t2) ->
       fst (lookup_target env (VString c) (VString w)) = Normal (VString t1)).
Proof.
  cbv zeta. split; [vm_compute; reflexivity|]. split; [vm_compute; reflexivity|].
  split; [vm_compute; reflexivity|]. split; [vm_compute; reflexivity|].
  intros H.
  specialize (H (Env_of_map store_empty_route) "NESTLE" "GDEC-01" "" "TARGET_B").
  assert (E : fst (lookup_target (Env_of_map store_empty_route)
                     (VString "NESTLE") (VString "GDEC-01")) = Normal (VString "")).
  { apply H; [discriminate | discriminate | vm_compute; reflexivity
             | vm_compute; reflexivity]. }
  vm_compute in E. discriminate E.
Qed.



(** C7 as stated fails: the body [null] parses and has no [data] field, and
    the result is 500; a body whose [data] is the empty string, which does
    not parse as JSON, gets "Missing data field in request body". *)
Lemma post_body_counterexample :
  (request_json post_null = Ok VNull /\
   has_own (VNull : value Z) "data" = false /\
   status (fst (fetch post_null env)) = 500 /\
   ~ is_error (fst (fetch post_null env)) 400 "Missing data field") /\
  (request_json post_empty_data = Ok (VObject [("data", VString "")]) /\
   (exists e, JSON_parse "" = Err e) /\
   fetch post_empty_data env =
     (json_response (error_object "Missing data field in request body") 400, []) /\
   ~ is_error (fst (fetch post_empty_data env)) 400 "Invalid JSON in data field").
Proof.
  split.
  - split; [vm_compute; reflexivity|]. split; [reflexivity|].
    split; [vm_compute; reflexivity|].
    intros (message & H & _). apply (f_equal status) in H. vm_compute in H.
    discriminate H.
  - split; [vm_compute; reflexivity|]. split; [eexists; vm_compute; reflexivity|].
    assert (E : fetch post_empty_data env =
      (json_response (error_object "Missing data field in request body") 400, []))
      by (vm_compute; reflexivity).
    split; [exact E|]. rewrite E. intros (message & H & Hc).
    apply error_response_inj in H as [H _]. subst message.
    revert Hc. apply not_Contains. vm_compute. reflexivity.
Qed.

(** C8 as stated fails: the 500 response of the outermost [catch] is not of
    the form [{error: message}] for any message. *)
Lemma failure_shape_counterexample :
  fst (fetch post_null env) = internal_error (TypeError_read "null" "data") /\
  fst (fetch post_null env) = failure_response (Internal (TypeError_read "null" "data")) /\
  ~ exists message code,
      fst (fetch post_null env) = json_response (error_object message) code.
Proof.
  assert (E : fst (fetch post_null env) = internal_error (TypeError_read "null" "data"))
    by (vm_compute; reflexivity).
  split; [exact E|]. split; [exact E|].
  rewrite E. intros (message & code & H).
  apply (f_equal (fun r => match resp_body r with Some text => text | None => "" end)) in H.
  cbn [internal_error json_response resp_body] in H.
  change (JSON_stringify (error_object message))
    with (Model.JSON_stringify (error_object message)) in H.
  rewrite stringify_error_object in H.
  match type of H with
  | ?l = _ ++ _ =>
      change l with
        (String "{" (String Model.dquote ("error" ++
           String Model.dquote (String ":" (String Model.dquote "")))) ++
         Model.quote_chars "Internal server error" ++
         String Model.dquote
           ("," ++ Model.quote "message" ++ ":" ++
            Model.quote (TypeError_read "null" "data") ++ "}")) in H
  end.
  apply append_inj_l in H. apply (f_equal Model.parse_chars) in H.
  rewrite !parse_chars_quote in H. vm_compute in H. discriminate H.
Qed.

(** The three lookups of C9 on stores that hold an empty string. *)
Lemma empty_values_example :
  lookup_target (Env_of_map store_empty_route) (VString "NESTLE") (VString "GDEC-01") =
    (Normal (VString "TARGET_B"),
     [KV_get "route:NESTLE:GDEC-01"; KV_get "route:NESTLE"]) /\
  fetch inventory (Env_of_map store_empty_endpoint) =
    (json_response (error_object "No endpoint found for target: TARGET_A") 404,
     [KV_get "route:NESTLE:GDEC-01"; KV_get "endpoint:TARGET_A"]) /\
  lookup_path (Env_of_map store_empty_path) (VString "TARGET_A") "/api/inventory" =
    (Normal (VString "/api/inventory"), [KV_get "path:TARGET_A:/api/inventory"]).
Proof. repeat split; vm_compute; reflexivity. Qed.

End ModelRuns.

(** * Further properties of the handler *)

Section RequestErrors.
Context {RT : Runtime}.

Abbreviation value := (value number).

(** X1.  A POST request whose body is not JSON (or is missing) is answered
    400 "Invalid or missing JSON body in request", before any key-value
    read. *)
Theorem invalid_body request env url e :
  URL_new (req_url request) None = Ok url ->
  req_method request = "POST" ->
  request_json request = Err e ->
  fetch request env =
    (json_response (error_object "Invalid or missing JSON body in request") 400, []) /\
  is_error (fst (fetch request env)) 400 "Invalid or missing JSON body".
Proof.
  intros Hurl Hm Hj.
  assert (E : fetch request env =
    (json_response (error_object "Invalid or missing JSON body in request") 400, [])).
  { apply (fetch_Return _ _ url); [assumption|].
    unfold extract. rewrite Hm. cbn [String.eqb Ascii.eqb Bool.eqb].
    rewrite Hj. reflexivity. }
  rewrite E. split; [reflexivity|].
  apply (is_error_intro _ _ _ "" " in request"). reflexivity.
Qed.

(** X2.  A POST request whose parsed body has a falsy [data] (absent, or
    present as [null], [false], [0] or the empty string) is answered 400
    "Missing data field in request body", before any key-value read. *)
Theorem falsy_data request env url requestBody data :
  URL_new (req_url request) None = Ok url ->
  req_method request = "POST" ->
  request_json request = Ok requestBody ->
  Get requestBody "data" = Ok data ->
  ToBoolean data = false ->
  fetch request env =
    (json_response (error_object "Missing data field in request body") 400, []).
Proof.
  intros Hurl Hm Hj Hd Hb.
  apply (fetch_Return _ _ url); [assumption|].
  rewrite (extract_POST _ _ requestBody) by assumption.
  rewrite (bind_lift_Ok _ data) by assumption. rewrite Hb. reflexivity.
Qed.

(** X3.  A POST request whose [data] decodes to the JSON value [null] is
    answered 400 "Invalid JSON in data field": reading [customerId] from
    [null] throws inside the inner [try].  (A body that is itself [null]
    ends in 500, C10.) *)
Theorem data_null request env url requestBody data text :
  URL_new (req_url request) None = Ok url ->
  req_method request = "POST" ->
  request_json request = Ok requestBody ->
  Get requestBody "data" = Ok data ->
  ToBoolean data = true ->
  ToString data = Ok text ->
  JSON_parse text = Ok VNull ->
  fetch request env =
    (json_response (error_object "Invalid JSON in data field") 400, []).
Proof.
  intros Hurl Hm Hj Hd Hb Ht Hp.
  apply (fetch_Return _ _ url); [assumption|].
  rewrite (extract_POST _ _ requestBody) by assumption.
  rewrite (bind_lift_Ok _ data) by assumption. rewrite Hb. cbn [negb].
  unfold parse_data. rewrite Ht, Hp. reflexivity.
Qed.

(** X4.  A POST request whose [data] decodes to a JSON value without a
    [customerId] property, an object lacking it or a number, string, boolean
    or array, is answered 400 "Missing required parameter: customerId". *)
Theorem data_without_customerId request env url requestBody data text parsedData :
  URL_new (req_url request) None = Ok url ->
  req_method request = "POST" ->
  request_json request = Ok requestBody ->
  Get requestBody "data" = Ok data ->
  ToBoolean data = true ->
  ToString data = Ok text ->
  JSON_parse text = Ok parsedData ->
  parsedData <> VNull -> parsedData <> VUndefined ->
  has_own parsedData "customerId" = false ->
  fetch request env =
    (json_response (error_object "Missing required parameter: customerId") 400, []).
Proof.
  intros Hurl Hm Hj Hd Hb Ht Hp Hn Hu Ho.
  assert (Hw : exists w, Get parsedData "warehouseId" = Ok w).
  { destruct parsedData; try contradiction; simpl; eauto.
    destruct (own_property properties "warehouseId"); eauto. }
  destruct Hw as [w Hw].
  unfold fetch.
  rewrite (handle_missing_customerId request env url VUndefined w requestBody);
    [reflexivity|assumption| |reflexivity].
  rewrite (extract_POST _ _ requestBody) by assumption.
  rewrite (bind_lift_Ok _ data) by assumption. rewrite Hb. cbn [negb].
  unfold parse_data. rewrite Ht, Hp, (Get_absent parsedData "customerId" Hn Hu Ho), Hw.
  reflexivity.
Qed.

End RequestErrors.

Section Routing.
Context {RT : Runtime}.

Abbreviation value := (value number).

Lemma lookup_target_customer env c warehouseId :
  no_warehouse_route env c warehouseId ->
  exists kvlog,
    lookup_target env (VString c) warehouseId =
      (kv_completion (ROUTING_KV_get env ("route:" ++ c)),
       (kvlog ++ [KV_get ("route:" ++ c)])%list) /\
    (if ToBoolean warehouseId
     then exists w, ToString warehouseId = Ok w /\
                    kvlog = [KV_get ("route:" ++ c ++ ":" ++ w)]
     else kvlog = []).
Proof.
  intros [Hw|(w & -> & Hw & Hk)].
  - exists []. rewrite (lookup_target_skipped env c warehouseId Hw), Hw. auto.
  - exists [KV_get ("route:" ++ c ++ ":" ++ w)].
    rewrite (lookup_target_fallback env c w Hw Hk).
    rewrite (ToBoolean_VString_true w Hw). eauto.
Qed.

(** X5.  Customer-level fallback: when [warehouseId] is missing, or the
    warehouse-specific route is absent or empty, and "route:{customerId}"
    holds a non-empty value, that value is the target key; the customer-level
    read comes right after the warehouse-specific one (if any) and is
    followed by the read of the target's endpoint. *)
Theorem customer_route_fallback request env url c warehouseId requestBody t2 :
  URL_new (req_url request) None = Ok url ->
  fst (extract request url) = Normal (VString c, warehouseId, requestBody) ->
  c <> "" ->
  no_warehouse_route env c warehouseId ->
  ROUTING_KV_get env ("route:" ++ c) = Ok (Some t2) ->
  t2 <> "" ->
  fst (lookup_target env (VString c) warehouseId) = Normal (VString t2) /\
  exists kvlog rest,
    snd (fetch request env) =
      (kvlog ++ KV_get ("route:" ++ c) :: KV_get ("endpoint:" ++ t2) :: rest)%list /\
    (if ToBoolean warehouseId
     then exists w, ToString warehouseId = Ok w /\
                    kvlog = [KV_get ("route:" ++ c ++ ":" ++ w)]
     else kvlog = []).
Proof.
  intros Hurl He Hc Hw Hk Ht.
  destruct (lookup_target_customer env c warehouseId Hw) as (kvlog & Hl & Hkv).
  rewrite Hk in Hl. cbn [kv_completion] in Hl.
  split; [rewrite Hl; reflexivity|].
  exists kvlog. rewrite fetch_trace.
  rewrite (handle_target request env url _ _ _ t2 _ Hurl (extract_pair _ _ _ He)
             (ToBoolean_VString_true c Hc) Hl Ht).
  destruct (kv_completion (ROUTING_KV_get env ("endpoint:" ++ t2))) as [v|r|m];
    [destruct (ToBoolean v)|..]; cbn [snd]; rewrite <- app_assoc; cbn [app];
    eexists; (split; [reflexivity|exact Hkv]).
Qed.

(** index.js:90-97 *)
Lemma handle_no_route request env url customerId warehouseId requestBody v kvlog :
  URL_new (req_url request) None = Ok url ->
  extract request url = (Normal (customerId, warehouseId, requestBody), []) ->
  ToBoolean customerId = true ->
  lookup_target env customerId warehouseId = (Normal v, kvlog) ->
  ToBoolean v = false ->
  let missing :=
    (c <- lift (ToString customerId) ;;
     suffix <- (if ToBoolean warehouseId then
                  w <- lift (ToString warehouseId) ;;
                  ret (", warehouseId: " ++ w)
                else ret "") ;;
     return_ (json_response
                (error_object ("No routing found for customerId: " ++ c ++ suffix))
                404)) : M Response in
  handle request env = (fst missing, (kvlog ++ snd missing)%list).
Proof.
  intros Hurl He Hc Hl Hv. cbv zeta. unfold handle.
  rewrite (bind_lift_Ok _ url) by assumption.
  rewrite He, bind_Normal. cbv beta iota. rewrite Hc. cbn [negb fst snd app].
  rewrite Hl, bind_Normal. cbv beta. rewrite Hv. reflexivity.
Qed.

(** X6.  When neither route key gives a target, the response is 404 "No
    routing found for customerId: {customerId}", with ", warehouseId:
    {warehouseId}" appended exactly when a [warehouseId] was given; only the
    route keys are read. *)
Theorem routing_not_found request env url c warehouseId requestBody :
  URL_new (req_url request) None = Ok url ->
  fst (extract request url) = Normal (VString c, warehouseId, requestBody) ->
  c <> "" ->
  no_warehouse_route env c warehouseId ->
  ROUTING_KV_get env ("route:" ++ c) = Ok None \/
  ROUTING_KV_get env ("route:" ++ c) = Ok (Some "") ->
  exists suffix,
    fst (fetch request env) =
      json_response
        (error_object ("No routing found for customerId: " ++ c ++ suffix)) 404 /\
    (if ToBoolean warehouseId
     then exists w, ToString warehouseId = Ok w /\ suffix = ", warehouseId: " ++ w /\
                    snd (fetch request env) =
                      [KV_get ("route:" ++ c ++ ":" ++ w); KV_get ("route:" ++ c)]
     else suffix = "" /\ snd (fetch request env) = [KV_get ("route:" ++ c)]) /\
    is_error (fst (fetch request env)) 404 "No routing found".
Proof.
  intros Hurl He Hc Hw Hk.
  destruct (lookup_target_customer env c warehouseId Hw) as (kvlog & Hl & Hkv).
  assert (Hv : exists v, kv_completion (ROUTING_KV_get env ("route:" ++ c)) = Normal v /\
                         ToBoolean v = false).
  { destruct Hk as [-> | ->]; eexists; split; reflexivity. }
  destruct Hv as (v & Hv & Hfalse). rewrite Hv in Hl.
  pose proof (handle_no_route request env url _ _ _ v _ Hurl (extract_pair _ _ _ He)
                (ToBoolean_VString_true c Hc) Hl Hfalse) as Hh.
  cbv zeta in Hh. rewrite ToString_VString in Hh. cbn [lift] in Hh. rewrite !bind_ret in Hh.
  destruct (ToBoolean warehouseId) eqn:Hb.
  - destruct Hkv as (w & Hws & ->). rewrite Hws in Hh. cbn [lift] in Hh.
    rewrite !bind_ret in Hh. cbn [return_ fst snd app] in Hh.
    exists (", warehouseId: " ++ w). unfold fetch. rewrite Hh. cbn [fst snd].
    split; [reflexivity|]. split; [eauto|].
    apply (is_error_intro _ _ _ "" (" for customerId: " ++ c ++ ", warehouseId: " ++ w)).
    reflexivity.
  - subst kvlog. rewrite !bind_ret in Hh. cbn [return_ fst snd app] in Hh.
    exists "". unfold fetch. rewrite Hh. cbn [fst snd].
    split; [reflexivity|]. split; [auto|].
    apply (is_error_intro _ _ _ "" (" for customerId: " ++ c ++ "")).
    reflexivity.
Qed.

(** X7.  When the target key resolves and "endpoint:{targetKey}" is absent,
    the response is 404 "No endpoint found for target: {targetKey}"; the
    endpoint read is the last call and no path is looked up. *)
Theorem endpoint_not_found request env url customerId warehouseId requestBody t kvlog :
  URL_new (req_url request) None = Ok url ->
  fst (extract request url) = Normal (customerId, warehouseId, requestBody) ->
  ToBoolean customerId = true ->
  lookup_target env customerId warehouseId = (Normal (VString t), kvlog) ->
  t <> "" ->
  ROUTING_KV_get env ("endpoint:" ++ t) = Ok None ->
  fetch request env =
    (json_response (error_object ("No endpoint found for target: " ++ t)) 404,
     (kvlog ++ [KV_get ("endpoint:" ++ t)])%list) /\
  is_error (fst (fetch request env)) 404 "No endpoint found".
Proof.
  intros Hurl He Hc Hl Ht Hk.
  assert (E : fetch request env =
    (json_response (error_object ("No endpoint found for target: " ++ t)) 404,
     (kvlog ++ [KV_get ("endpoint:" ++ t)])%list)).
  { unfold fetch.
    rewrite (handle_target request env url _ _ _ t _ Hurl (extract_pair _ _ _ He)
               Hc Hl Ht), Hk.
    reflexivity. }
  rewrite E. split; [reflexivity|].
  apply (is_error_intro _ _ _ "" (" for target: " ++ t)). reflexivity.
Qed.

(** X8.  When the endpoint stored for the target does not make a valid URL
    with the destination path, the [URL] constructor's exception reaches the
    outer [catch]: the response is 500 with that message, after the route,
    endpoint and path lookups and without any outbound call. *)
Theorem invalid_target_url request env url requestBody t e log d plog m :
  Resolved request env url requestBody t e log ->
  lookup_path env (VString t) (pathname url) = (Normal (VString d), plog) ->
  URL_new (d ++ search url) (Some e) = Err m ->
  fetch request env = (internal_error m, (log ++ plog)%list) /\
  status (fst (fetch request env)) = 500 /\
  Forall is_KV_get (snd (fetch request env)).
Proof.
  intros Hr Hp Hu.
  assert (E : fetch request env = (internal_error m, (log ++ plog)%list)).
  { unfold fetch. rewrite (handle_resolved _ _ _ _ _ _ _ Hr).
    unfold forward. rewrite Hp, bind_Normal. cbv beta.
    rewrite !ToString_VString. cbn [lift]. rewrite !bind_ret.
    unfold build_forward. rewrite !ToString_VString. cbn [lift]. rewrite !bind_ret.
    rewrite !(bind_lift_Err _ m) by assumption. cbn [fst snd].
    rewrite app_nil_r. reflexivity. }
  rewrite E. split; [reflexivity|]. split; [reflexivity|]. cbn [snd].
  destruct Hr as [_ (cid & wid & kvlog & _ & _ & Hl & ->) _ _ _].
  destruct (lookup_target_spec env cid wid) as [_ Hkv]. rewrite Hl in Hkv.
  destruct (lookup_path_spec env (VString t) (pathname url)) as [_ Hpl].
  rewrite Hp in Hpl.
  repeat (apply Forall_app; split); auto. repeat constructor.
Qed.

End Routing.

Section Calls.
Context {RT : Runtime}.

Abbreviation value := (value number).

Lemma missing_route_trace (customerId warehouseId : value) :
  snd (c <- lift (ToString customerId) ;;
       suffix <- (if ToBoolean warehouseId then
                    w <- lift (ToString warehouseId) ;;
                    ret (", warehouseId: " ++ w)
                  else ret "") ;;
       return_ (json_response
                  (error_object ("No routing found for customerId: " ++ c ++ suffix))
                  404) : M Response) = [].
Proof.
  destruct (ToString customerId) as [c|m]; cbn [lift]; [|reflexivity].
  rewrite bind_ret.
  destruct (ToBoolean warehouseId); [|rewrite bind_ret; reflexivity].
  destruct (ToString warehouseId) as [w|m]; cbn [lift]; [|reflexivity].
  rewrite !bind_ret. reflexivity.
Qed.

Lemma kv_completion_truthy r v :
  kv_completion r = Normal v -> ToBoolean v = true ->
  exists s, r = Ok (Some s) /\ v = VString s /\ s <> "".
Proof.
  destruct r as [[s|]|m]; simpl; intros H Hv; inversion H; subst; try discriminate.
  exists s. repeat split. intros ->. discriminate.
Qed.

(** The run of a forwarded request. *)
Lemma forwarded_inv request env forwardRequest :
  In (Fetch forwardRequest) (snd (fetch request env)) ->
  exists url requestBody t e log d targetUrl,
    Resolved request env url requestBody t e log /\
    lookup_path env (VString t) (pathname url) =
      (Normal (VString d), [KV_get ("path:" ++ t ++ ":" ++ pathname url)]) /\
    URL_new (d ++ search url) (Some e) = Ok targetUrl /\
    forwardRequest = make_forward request requestBody targetUrl /\
    snd (fetch request env) =
      (log ++ [KV_get ("path:" ++ t ++ ":" ++ pathname url); Fetch forwardRequest])%list.
Proof.
  rewrite fetch_trace. unfold handle at 1.
  destruct (URL_new (req_url request) None) as [url|m] eqn:Hurl; [|intros []].
  cbn [lift]. rewrite bind_ret.
  pose proof (extract_trace request url) as Ht.
  destruct (extract request url) as [[[[customerId warehouseId] requestBody]|r|m] l] eqn:He;
    cbn [snd] in Ht; subst l; [|intros []..].
  rewrite bind_Normal. cbv beta iota. cbn [fst snd app].
  destruct (ToBoolean customerId) eqn:Hc; cbn [negb]; [|intros []].
  destruct (lookup_target_spec env customerId warehouseId) as [Hs Hkv].
  destruct (lookup_target env customerId warehouseId) as [[v|r|m] kvlog] eqn:Hl;
    cbn [fst snd] in Hs, Hkv; [|destruct Hs|].
  2: { intros Hin. destruct (not_KV_Fetch _ _ Hkv Hin). }
  rewrite bind_Normal. cbv beta.
  destruct (ToBoolean v) eqn:Hv; cbn [negb].
  2: { cbn [snd]. rewrite missing_route_trace, app_nil_r.
       intros Hin. destruct (not_KV_Fetch _ _ Hkv Hin). }
  destruct Hs as [->|[t ->]]; [discriminate|].
  assert (Hne : t <> "") by (intros ->; discriminate).
  intros Hin.
  pose proof (handle_target request env url _ _ _ t _ Hurl He Hc Hl Hne) as Hh.
  assert (Hin' : In (Fetch forwardRequest) (snd (handle request env))).
  { unfold handle. rewrite (bind_lift_Ok _ url) by assumption.
    rewrite He, bind_Normal. cbv beta iota. rewrite Hc. cbn [negb fst snd app].
    rewrite Hl, bind_Normal. cbv beta. rewrite Hv. cbn [negb]. exact Hin. }
  clear Hin. rewrite Hh in Hin' |- *.
  destruct (kv_completion (ROUTING_KV_get env ("endpoint:" ++ t))) as [te|r|m] eqn:Hk.
  2,3: cbn [snd] in Hin'; apply in_app_or in Hin' as [Hin|[Hin|[]]];
       [destruct (not_KV_Fetch _ _ Hkv Hin)|discriminate Hin].
  destruct (ToBoolean te) eqn:Hte.
  2: { cbn [snd] in Hin'. apply in_app_or in Hin' as [Hin|[Hin|[]]];
       [destruct (not_KV_Fetch _ _ Hkv Hin)|discriminate Hin]. }
  destruct (kv_completion_truthy _ _ Hk Hte) as (e & Hke & -> & Hee).
  assert (Hr : Resolved request env url requestBody t e
                 (kvlog ++ [KV_get ("endpoint:" ++ t)])%list).
  { constructor; auto. exists customerId, warehouseId, kvlog. auto. }
  cbn [snd] in Hin' |- *.
  apply in_app_or in Hin' as [Hin|[Hin|Hin]];
    [destruct (not_KV_Fetch _ _ Hkv Hin)|discriminate Hin|].
  pose proof (lookup_path_eq env t (pathname url)) as Hp.
  destruct (kv_completion (ROUTING_KV_get env ("path:" ++ t ++ ":" ++ pathname url)))
    as [pm|r|m] eqn:Hpk.
  2: { destruct (ROUTING_KV_get env ("path:" ++ t ++ ":" ++ pathname url)) as [[?|]|];
       discriminate Hpk. }
  2: { exfalso. revert Hin. unfold forward. rewrite Hp. cbn [bind snd].
       intros [Hin|[]]. discriminate Hin. }
  assert (Hd : exists d, (if ToBoolean pm then pm else VString (pathname url)) = VString d).
  { destruct (ToBoolean pm) eqn:Hpm; [|eauto].
    destruct (kv_completion_truthy _ _ Hpk Hpm) as (s & _ & -> & _). eauto. }
  destruct Hd as [d Hd]. rewrite Hd in Hp.
  destruct (URL_new (d ++ search url) (Some e)) as [targetUrl|m] eqn:Hu.
  - rewrite (forward_sent _ _ _ _ _ _ _ _ _ Hp Hu) in Hin |- *. cbn [snd] in Hin |- *.
    destruct Hin as [Hin|[Hin|[]]]; [discriminate Hin|]. injection Hin as <-.
    exists url, requestBody, t, e, (kvlog ++ [KV_get ("endpoint:" ++ t)])%list, d, targetUrl.
    split; [exact Hr|]. split; [exact Hp|]. split; [exact Hu|]. split; [reflexivity|].
    rewrite <- app_assoc. reflexivity.
  - exfalso. revert Hin. unfold forward. rewrite Hp, bind_Normal. cbv beta.
    rewrite !ToString_VString. cbn [lift]. rewrite !bind_ret.
    unfold build_forward. rewrite !ToString_VString. cbn [lift]. rewrite !bind_ret.
    rewrite !(bind_lift_Err _ m) by assumption. cbn [fst snd app].
    intros [Hin|[]]. discriminate Hin.
Qed.

End Calls.

Section Forwarding.
Context {RT : Runtime}.

Abbreviation value := (value number).

(** X9.  When the outbound [fetch] is rejected (the backend cannot be
    reached), the response is 500 with error "Internal server error" and the
    rejection's message in [message]. *)
Theorem backend_rejection request env forwardRequest m :
  In (Fetch forwardRequest) (snd (fetch request env)) ->
  global_fetch forwardRequest = Err m ->
  fst (fetch request env) = internal_error m /\
  status (fst (fetch request env)) = 500 /\
  resp_body (fst (fetch request env)) =
    Some (JSON_stringify (VObject [("error", VString "Internal server error");
                                   ("message", VString m)])).
Proof.
  intros Hin Hf.
  assert (E : fst (fetch request env) = internal_error m); [|rewrite E; auto].
  revert Hin. unfold fetch. pose proof (handle_outcome request env) as H.
  destruct (handle request env) as [[r|r|m'] log]; simpl in *; intros Hin.
  - destruct H as (kv & fwd & -> & Hkv & Hok).
    apply In_Fetch_last in Hin; [|assumption]. congruence.
  - destruct H as [_ Hkv]. destruct (not_KV_Fetch _ _ Hkv Hin).
  - destruct H as [Hkv|(kv & fwd & -> & Hkv & Herr)].
    + destruct (not_KV_Fetch _ _ Hkv Hin).
    + apply In_Fetch_last in Hin; [|assumption]. congruence.
Qed.



End Forwarding.

Section Order.
Context {RT : Runtime}.

Abbreviation value := (value number).

Lemma route_prefix (x : string) : starts_with "route:" ("route:" ++ x) = true.
Proof. apply starts_with_app. Qed.

(** The reads of step 1: one or two route keys, the value of the last one
    being the result. *)
Lemma lookup_target_keys env customerId warehouseId :
  exists keys,
    snd (lookup_target env customerId warehouseId) = map KV_get keys /\
    (length keys <= 2)%nat /\
    Forall (fun k => starts_with "route:" k = true) keys /\
    forall v, fst (lookup_target env customerId warehouseId) = Normal v ->
              exists init k, keys = (init ++ [k])%list /\
                             kv_completion (ROUTING_KV_get env k) = Normal v.
Proof.
  unfold lookup_target.
  destruct (ToBoolean warehouseId).
  - destruct (ToString customerId) as [c|m]; cbn [lift].
    2: { exists []. repeat split; auto. intros v H. discriminate H. }
    rewrite !bind_ret.
    destruct (ToString warehouseId) as [w|m]; cbn [lift].
    2: { exists []. repeat split; auto. intros v H. discriminate H. }
    rewrite !bind_ret, ROUTING_KV_get_eq.
    destruct (kv_completion (ROUTING_KV_get env ("route:" ++ c ++ ":" ++ w)))
      as [v1|r|m] eqn:Hk.
    + rewrite bind_Normal. cbv beta.
      destruct (ToBoolean v1) eqn:Hv; cbn [negb].
      * exists ["route:" ++ c ++ ":" ++ w]. cbn [ret fst snd app map length].
        repeat split; [lia|repeat constructor; apply route_prefix|].
        intros v H. injection H as <-. exists [], ("route:" ++ c ++ ":" ++ w). auto.
      * rewrite ROUTING_KV_get_eq.
        exists ["route:" ++ c ++ ":" ++ w; "route:" ++ c]. cbn [fst snd app map length].
        repeat split; [lia|repeat constructor; apply route_prefix|].
        intros v H. exists ["route:" ++ c ++ ":" ++ w], ("route:" ++ c). auto.
    + exists ["route:" ++ c ++ ":" ++ w]. cbn [bind fst snd map length].
      repeat split; [lia|repeat constructor; apply route_prefix|].
      intros v H. discriminate H.
    + exists ["route:" ++ c ++ ":" ++ w]. cbn [bind fst snd map length].
      repeat split; [lia|repeat constructor; apply route_prefix|].
      intros v H. discriminate H.
  - rewrite bind_ret. cbn [ToBoolean negb].
    destruct (ToString customerId) as [c|m]; cbn [lift].
    2: { exists []. repeat split; auto. intros v H. discriminate H. }
    rewrite !bind_ret, ROUTING_KV_get_eq.
    exists ["route:" ++ c]. cbn [fst snd map length].
    repeat split; [lia|repeat constructor; apply route_prefix|].
    intros v H. exists [], ("route:" ++ c). auto.
Qed.

(** X11.  A request is forwarded only after three or four reads, in this
    order: the route key (preceded by the warehouse-specific one when that
    gave nothing), the endpoint of the target that the last route read
    returned, and the path mapping of that target for the request path; the
    outbound call is the last call. *)
Theorem forwarded_after_lookups request env forwardRequest :
  In (Fetch forwardRequest) (snd (fetch request env)) ->
  exists url fallback route t e,
    URL_new (req_url request) None = Ok url /\
    snd (fetch request env) =
      (map KV_get (fallback ++ [route]) ++
       [KV_get ("endpoint:" ++ t);
        KV_get ("path:" ++ t ++ ":" ++ pathname url);
        Fetch forwardRequest])%list /\
    (length fallback <= 1)%nat /\
    Forall (fun k => starts_with "route:" k = true) (fallback ++ [route]) /\
    ROUTING_KV_get env route = Ok (Some t) /\ t <> "" /\
    ROUTING_KV_get env ("endpoint:" ++ t) = Ok (Some e) /\ e <> "".
Proof.
  intros Hin.
  destruct (forwarded_inv request env forwardRequest Hin)
    as (url & requestBody & t & e & log & d & targetUrl & Hr & _ & _ & _ & Hlog).
  destruct Hr as [Hurl (cid & wid & kvlog & _ & _ & Hl & ->) Ht Hk He].
  destruct (lookup_target_keys env cid wid) as (keys & Hkeys & Hlen & Hpre & Hlast).
  rewrite Hl in Hkeys, Hlast. cbn [fst snd] in Hkeys, Hlast.
  destruct (Hlast _ eq_refl) as (init & route & -> & Hroute).
  exists url, init, route, t, e.
  split; [exact Hurl|]. split.
  { rewrite Hlog, Hkeys, <- !app_assoc. reflexivity. }
  split.
  { rewrite length_app in Hlen. cbn [length] in Hlen. lia. }
  split; [exact Hpre|].
  split.
  { destruct (ROUTING_KV_get env route) as [[s|]|m]; cbn [kv_completion] in Hroute;
      congruence. }
  auto.
Qed.

End Order.

Lemma route_in_namespace k : starts_with "route:" k = true -> in_namespace k = true.
Proof. intros H. unfold in_namespace. rewrite H. reflexivity. Qed.

Lemma endpoint_in_namespace t : in_namespace ("endpoint:" ++ t) = true.
Proof.
  unfold in_namespace. rewrite (starts_with_app "endpoint:" t).
  apply orb_true_iff. left. apply orb_true_r.
Qed.

Lemma path_in_namespace t : in_namespace ("path:" ++ t) = true.
Proof. unfold in_namespace. rewrite (starts_with_app "path:" t). apply orb_true_r. Qed.

Lemma disciplined_nil n : disciplined n [].
Proof. exists []. split; [constructor|]. split; [simpl; lia|]. left. reflexivity. Qed.

Lemma disciplined_app a b keys log :
  Forall (fun k => in_namespace k = true) keys -> (length keys <= a)%nat ->
  disciplined b log -> disciplined (a + b) (map KV_get keys ++ log).
Proof.
  intros Hk Ha (keys' & Hk' & Hb & Hlog).
  exists (keys ++ keys')%list. split; [apply Forall_app; auto|].
  split; [rewrite length_app; lia|].
  rewrite map_app. destruct Hlog as [->|[fwd ->]]; [left; reflexivity|].
  right. exists fwd. rewrite app_assoc. reflexivity.
Qed.

Lemma disciplined_keys a keys :
  Forall (fun k => in_namespace k = true) keys -> (length keys <= a)%nat ->
  disciplined a (map KV_get keys).
Proof. intros Hk Ha. exists keys. auto. Qed.

Lemma disciplined_cons b key log :
  in_namespace key = true -> disciplined b log -> disciplined (S b) (KV_get key :: log).
Proof.
  intros Hk H. apply (disciplined_app 1 b [key] log); [repeat constructor; exact Hk| |exact H].
  simpl. lia.
Qed.

Section Discipline.
Context {RT : Runtime}.

Abbreviation value := (value number).

Lemma forward_disciplined request env url requestBody t e :
  disciplined 1 (snd (forward request env url requestBody (VString t) (VString e))).
Proof.
  unfold forward. rewrite lookup_path_eq.
  change [KV_get ("path:" ++ t ++ ":" ++ pathname url)]
    with (map KV_get ["path:" ++ t ++ ":" ++ pathname url]).
  assert (Hns : Forall (fun k => in_namespace k = true)
                  ["path:" ++ t ++ ":" ++ pathname url])
    by (repeat constructor; apply path_in_namespace).
  destruct (kv_completion _) as [pm|r|m]; cbn [bind fst snd];
    [|apply disciplined_keys; [exact Hns|simpl; lia]..].
  set (d := if ToBoolean pm then pm else VString (pathname url)).
  rewrite ToString_VString. cbn [lift]. rewrite bind_ret.
  destruct (build_forward_spec request url requestBody e d) as [Hr Hnil].
  destruct (build_forward request url requestBody e d) as [[fwd|r|m] l];
    cbn [fst snd] in Hr, Hnil; subst l.
  - rewrite bind_Normal. cbn [fst snd app]. unfold fetch_.
    exists ["path:" ++ t ++ ":" ++ pathname url]. split; [exact Hns|].
    split; [simpl; lia|]. right. exists fwd.
    destruct (global_fetch fwd); reflexivity.
  - destruct (Hr r eq_refl).
  - cbn [bind fst snd]. rewrite app_nil_r.
    apply disciplined_keys; [exact Hns|simpl; lia].
Qed.

Lemma handle_disciplined request env : disciplined 4 (snd (handle request env)).
Proof.
  unfold handle.
  destruct (URL_new (req_url request) None) as [url|m]; cbn [lift];
    [|apply disciplined_nil].
  rewrite bind_ret.
  pose proof (extract_trace request url) as Ht.
  destruct (extract request url) as [[[[customerId warehouseId] requestBody]|r|m] l];
    cbn [snd] in Ht; subst l; [|apply disciplined_nil..].
  rewrite bind_Normal. cbv beta iota. cbn [fst snd app].
  destruct (ToBoolean customerId); cbn [negb]; [|apply disciplined_nil].
  destruct (lookup_target_keys env customerId warehouseId)
    as (keys & Hkeys & Hlen & Hpre & _).
  assert (Hns : Forall (fun k => in_namespace k = true) keys).
  { eapply Forall_impl; [exact Hpre|exact route_in_namespace]. }
  destruct (lookup_target_spec env customerId warehouseId) as [Hs _].
  destruct (lookup_target env customerId warehouseId) as [[v|r|m] kvlog];
    cbn [fst snd] in Hs, Hkeys; subst kvlog.
  2: destruct Hs.
  2: { cbn [bind snd]. apply disciplined_keys; [exact Hns|lia]. }
  rewrite bind_Normal. cbv beta. cbn [snd].
  destruct (ToBoolean v) eqn:Hv; cbn [negb].
  { destruct Hs as [->|[t ->]]; [discriminate|].
    rewrite ToString_VString. cbn [lift]. rewrite bind_ret, bind_kv.
    destruct (kv_completion (ROUTING_KV_get env ("endpoint:" ++ t))) as [te|r|m] eqn:Hk;
      cbn [snd]; (apply (disciplined_app 2 2); [exact Hns|lia|]);
      (apply disciplined_cons; [apply endpoint_in_namespace|]);
      [|apply disciplined_nil..].
    destruct (ToBoolean te) eqn:Hte; cbn [negb].
    - destruct (kv_completion_truthy _ _ Hk Hte) as (e & _ & -> & _).
      apply forward_disciplined.
    - cbn [lift]. rewrite bind_ret. apply disciplined_nil. }
  rewrite missing_route_trace, app_nil_r. apply disciplined_keys; [exact Hns|lia].
Qed.

(** X12.  Call discipline: every run makes at most four key-value reads,
    all of keys in the namespaces "route:", "endpoint:" and "path:",
    followed by at most one outbound request and nothing after it. *)
Theorem call_discipline request env :
  exists keys,
    Forall (fun k => in_namespace k = true) keys /\ (length keys <= 4)%nat /\
    (snd (fetch request env) = map KV_get keys \/
     exists forwardRequest,
       snd (fetch request env) = (map KV_get keys ++ [Fetch forwardRequest])%list).
Proof. rewrite fetch_trace. exact (handle_disciplined request env). Qed.

End Discipline.

Lemma stops_pure env {A} (m : M A) : snd m = [] -> stops_at_rejection env m.
Proof. intros H key e Hin. rewrite H in Hin. destruct Hin. Qed.

Lemma stops_bind env {A B} (m : M A) (k : A -> M B) :
  stops_at_rejection env m -> (forall a, stops_at_rejection env (k a)) ->
  stops_at_rejection env (bind m k).
Proof.
  intros Hm Hk key e.
  destruct m as [[a|r|x] l]; [rewrite bind_Normal|..].
  2: { intros Hin He. destruct (Hm key e Hin He) as [H _]. discriminate H. }
  2: { intros Hin He. destruct (Hm key e Hin He) as [H Hl]. injection H as ->.
       split; [reflexivity|exact Hl]. }
  cbn [fst snd]. intros Hin He.
  apply in_app_or in Hin as [Hin|Hin].
  - destruct (Hm key e Hin He) as [H _]. discriminate H.
  - destruct (Hk a key e Hin He) as [Hc (l0 & Hl)]. split; [exact Hc|].
    exists (l ++ l0)%list. rewrite Hl, app_assoc. reflexivity.
Qed.

Lemma framed_same env env' {A} (m : M A) : framed env env' m m.
Proof. intros _. reflexivity. Qed.

Lemma framed_bind env env' {A B} (m m' : M A) (k k' : A -> M B) :
  framed env env' m m' -> (forall a, framed env env' (k a) (k' a)) ->
  framed env env' (bind m k) (bind m' k').
Proof.
  intros Hm Hk.
  destruct m as [[a|r|x] l]; [rewrite bind_Normal|..]; intros Hagree.
  - rewrite (Hm (fun key Hin => Hagree key (in_or_app _ _ _ (or_introl Hin)))).
    rewrite bind_Normal.
    rewrite (Hk a (fun key Hin => Hagree key (in_or_app _ _ _ (or_intror Hin)))).
    reflexivity.
  - rewrite (Hm Hagree). reflexivity.
  - rewrite (Hm Hagree). reflexivity.
Qed.

Section Store.
Context {RT : Runtime}.

Abbreviation value := (value number).

Lemma lift_trace {A} (r : result A) : snd (lift r) = [].
Proof. destruct r; reflexivity. Qed.

Lemma stops_kv env key : stops_at_rejection env (ROUTING_KV_get_ env key).
Proof.
  intros k e [Hin|[]] He. injection Hin as <-.
  unfold ROUTING_KV_get_. rewrite He. split; [reflexivity|]. exists []. reflexivity.
Qed.

Lemma framed_kv env env' key :
  framed env env' (ROUTING_KV_get_ env key) (ROUTING_KV_get_ env' key).
Proof.
  intros Hagree. unfold ROUTING_KV_get_. rewrite (Hagree key); [reflexivity|].
  left. reflexivity.
Qed.

Lemma stops_lookup_target env customerId warehouseId :
  stops_at_rejection env (lookup_target env customerId warehouseId).
Proof.
  unfold lookup_target. apply stops_bind.
  - destruct (ToBoolean warehouseId); [|apply stops_pure; reflexivity].
    apply stops_bind; [apply stops_pure, lift_trace|intros c].
    apply stops_bind; [apply stops_pure, lift_trace|intros w].
    apply stops_kv.
  - intros targetKey. destruct (negb (ToBoolean targetKey)); [|apply stops_pure; reflexivity].
    apply stops_bind; [apply stops_pure, lift_trace|intros c]. apply stops_kv.
Qed.

Lemma framed_lookup_target env env' customerId warehouseId :
  framed env env' (lookup_target env customerId warehouseId)
    (lookup_target env' customerId warehouseId).
Proof.
  unfold lookup_target. apply framed_bind.
  - destruct (ToBoolean warehouseId); [|apply framed_same].
    apply framed_bind; [apply framed_same|intros c].
    apply framed_bind; [apply framed_same|intros w].
    apply framed_kv.
  - intros targetKey. destruct (negb (ToBoolean targetKey)); [|apply framed_same].
    apply framed_bind; [apply framed_same|intros c]. apply framed_kv.
Qed.

Lemma stops_forward request env url requestBody targetKey targetEndpoint :
  stops_at_rejection env (forward request env url requestBody targetKey targetEndpoint).
Proof.
  unfold forward. apply stops_bind.
  - unfold lookup_path. apply stops_bind; [apply stops_pure, lift_trace|intros t].
    apply stops_bind; [apply stops_kv|intros pm]. apply stops_pure. reflexivity.
  - intros d. apply stops_bind; [apply stops_pure, lift_trace|intros e].
    apply stops_bind; [apply stops_pure, build_forward_spec|intros fwd].
    apply stops_bind; [|intros r; apply stops_pure; reflexivity].
    intros key x [Hin|[]]. discriminate Hin.
Qed.

Lemma framed_forward request env env' url requestBody targetKey targetEndpoint :
  framed env env' (forward request env url requestBody targetKey targetEndpoint)
    (forward request env' url requestBody targetKey targetEndpoint).
Proof.
  unfold forward. apply framed_bind; [|intros d; apply framed_same].
  unfold lookup_path. apply framed_bind; [apply framed_same|intros t].
  apply framed_bind; [apply framed_kv|intros pm]. apply framed_same.
Qed.

Lemma stops_handle request env : stops_at_rejection env (handle request env).
Proof.
  unfold handle. apply stops_bind; [apply stops_pure, lift_trace|intros url].
  apply stops_bind; [apply stops_pure, extract_trace|intros [[customerId warehouseId] requestBody]].
  destruct (negb (ToBoolean customerId)); [apply stops_pure; reflexivity|].
  apply stops_bind; [apply stops_lookup_target|intros targetKey].
  destruct (negb (ToBoolean targetKey)); [apply stops_pure, missing_route_trace|].
  apply stops_bind; [apply stops_pure, lift_trace|intros t].
  apply stops_bind; [apply stops_kv|intros targetEndpoint].
  destruct (negb (ToBoolean targetEndpoint)); [|apply stops_forward].
  apply stops_bind; [apply stops_pure, lift_trace|intros t']. apply stops_pure. reflexivity.
Qed.

Lemma framed_handle request env env' :
  framed env env' (handle request env) (handle request env').
Proof.
  unfold handle. apply framed_bind; [apply framed_same|intros url].
  apply framed_bind; [apply framed_same|intros [[customerId warehouseId] requestBody]].
  destruct (negb (ToBoolean customerId)); [apply framed_same|].
  apply framed_bind; [apply framed_lookup_target|intros targetKey].
  destruct (negb (ToBoolean targetKey)); [apply framed_same|].
  apply framed_bind; [apply framed_same|intros t].
  apply framed_bind; [apply framed_kv|intros targetEndpoint].
  destruct (negb (ToBoolean targetEndpoint)); [apply framed_same|apply framed_forward].
Qed.

(** X13.  When a key-value read is rejected, the response is 500 with the
    rejection's message, and the rejected read is the last call: no further
    lookup and no outbound request follow it. *)
Theorem store_rejection request env key e :
  In (KV_get key) (snd (fetch request env)) ->
  ROUTING_KV_get env key = Err e ->
  fst (fetch request env) = internal_error e /\
  status (fst (fetch request env)) = 500 /\
  exists l, snd (fetch request env) = (l ++ [KV_get key])%list.
Proof.
  intros Hin He. rewrite fetch_trace in Hin.
  destruct (stops_handle request env key e Hin He) as [Hc Hl].
  assert (E : fst (fetch request env) = internal_error e).
  { unfold fetch. destruct (handle request env) as [[r|r|m] l]; cbn [fst] in Hc;
      try discriminate Hc. injection Hc as ->. reflexivity. }
  rewrite E, fetch_trace. auto.
Qed.

(** X14.  The response depends on the store only through the keys that were
    read: on a second store that agrees on those keys, the worker makes the
    same calls and returns the same response. *)
Theorem store_frame request env env' :
  (forall key, In (KV_get key) (snd (fetch request env)) ->
               ROUTING_KV_get env' key = ROUTING_KV_get env key) ->
  fetch request env' = fetch request env.
Proof.
  intros Hagree. unfold fetch. rewrite (framed_handle request env env'); [reflexivity|].
  intros key Hin. apply Hagree. rewrite fetch_trace. exact Hin.
Qed.

End Store.

Section Success.
Context {RT : Runtime}.

Abbreviation value := (value number).


End Success.

(** ** Runs on the model runtime *)

Section FurtherRuns.
#[local] Existing Instance Model.runtime.
Import Examples.

Lemma invalid_body_witness :
  fetch post_empty env =
    (json_response (error_object "Invalid or missing JSON body in request") 400, []).
Proof.
  eapply (invalid_body (RT:=Model.runtime) post_empty env (parsed (req_url post_empty)));
    [vm_compute; reflexivity | reflexivity | vm_compute; reflexivity].
Defined.

Lemma falsy_data_witness :
  fetch post_empty_data env =
    (json_response (error_object "Missing data field in request body") 400, []).
Proof.
  eapply (falsy_data (RT:=Model.runtime) post_empty_data env
            (parsed (req_url post_empty_data)));
    [vm_compute; reflexivity | reflexivity | vm_compute; reflexivity
    | vm_compute; reflexivity | reflexivity].
Defined.

Lemma data_null_witness :
  fetch post_data_null env =
    (json_response (error_object "Invalid JSON in data field") 400, []).
Proof.
  eapply (data_null (RT:=Model.runtime) post_data_null env
            (parsed (req_url post_data_null)));
    [vm_compute; reflexivity | reflexivity | vm_compute; reflexivity
    | vm_compute; reflexivity | reflexivity | reflexivity | vm_compute; reflexivity].
Defined.

Lemma data_without_customerId_witness :
  fetch post_data_number env =
    (json_response (error_object "Missing required parameter: customerId") 400, []).
Proof.
  eapply (data_without_customerId (RT:=Model.runtime) post_data_number env
            (parsed (req_url post_data_number)));
    [vm_compute; reflexivity | reflexivity | vm_compute; reflexivity
    | vm_compute; reflexivity | reflexivity | reflexivity | vm_compute; reflexivity
    | discriminate | discriminate | reflexivity].
Defined.

Lemma customer_route_fallback_witness :
  fst (lookup_target env (VString "COCA_COLA") (VString "ANY_WAREHOUSE")) =
    Normal (VString "TARGET_A").
Proof.
  eapply (customer_route_fallback (RT:=Model.runtime) post_coca_cola env
            (parsed (req_url post_coca_cola)) "COCA_COLA" (VString "ANY_WAREHOUSE"));
    [vm_compute; reflexivity | vm_compute; reflexivity | discriminate
    | right; exists "ANY_WAREHOUSE";
      split; [reflexivity|split; [discriminate|left; vm_compute; reflexivity]]
    | vm_compute; reflexivity | discriminate].
Defined.

Lemma routing_not_found_witness :
  (exists suffix,
     fst (fetch post_unknown env) =
       json_response
         (error_object ("No routing found for customerId: " ++ "UNKNOWN" ++ suffix)) 404) /\
  (exists suffix,
     fst (fetch get_unknown env) =
       json_response
         (error_object ("No routing found for customerId: " ++ "UNKNOWN" ++ suffix)) 404).
Proof.
  split.
  - destruct (routing_not_found (RT:=Model.runtime) post_unknown env
                (parsed (req_url post_unknown)) "UNKNOWN" (VString "UNKNOWN")
                (VObject [("data", VString (Model.JSON_stringify
                   (VObject [("customerId", VString "UNKNOWN");
                             ("warehouseId", VString "UNKNOWN");
                             ("docNo", VString "123")])))])
                ltac:(vm_compute; reflexivity) ltac:(vm_compute; reflexivity)
                ltac:(discriminate)
                ltac:(right; exists "UNKNOWN";
                      split; [reflexivity|split; [discriminate|left; vm_compute; reflexivity]])
                ltac:(left; vm_compute; reflexivity))
      as (suffix & H & _).
    exists suffix. exact H.
  - destruct (routing_not_found (RT:=Model.runtime) get_unknown env
                (parsed (req_url get_unknown)) "UNKNOWN" VNull VUndefined
                ltac:(vm_compute; reflexivity) ltac:(vm_compute; reflexivity)
                ltac:(discriminate) ltac:(left; reflexivity)
                ltac:(left; vm_compute; reflexivity))
      as (suffix & H & _).
    exists suffix. exact H.
Defined.

Lemma endpoint_not_found_witness :
  fetch inventory (Env_of_map store_without_endpoint) =
    (json_response (error_object ("No endpoint found for target: " ++ "TARGET_A")) 404,
     [KV_get "route:NESTLE:GDEC-01"; KV_get "endpoint:TARGET_A"]).
Proof.
  eapply (endpoint_not_found (RT:=Model.runtime) inventory
            (Env_of_map store_without_endpoint) (parsed (req_url inventory))
            (VString "NESTLE") (VString "GDEC-01") _ "TARGET_A"
            [KV_get "route:NESTLE:GDEC-01"]);
    [vm_compute; reflexivity | vm_compute; reflexivity | reflexivity
    | vm_compute; reflexivity | discriminate | vm_compute; reflexivity].
Defined.

Lemma bad_endpoint_resolved :
  Resolved inventory (Env_of_map store_bad_endpoint) (parsed (req_url inventory))
    (VObject [("data", VString (Model.JSON_stringify nestle))])
    "TARGET_A" "backend.internal"
    [KV_get "route:NESTLE:GDEC-01"; KV_get "endpoint:TARGET_A"].
Proof.
  constructor.
  - vm_compute; reflexivity.
  - eexists _, _, _. repeat split; vm_compute; reflexivity.
  - discriminate.
  - vm_compute; reflexivity.
  - discriminate.
Defined.

Lemma invalid_target_url_witness :
  fetch inventory (Env_of_map store_bad_endpoint) =
    (internal_error Model.InvalidURL,
     [KV_get "route:NESTLE:GDEC-01"; KV_get "endpoint:TARGET_A";
      KV_get "path:TARGET_A:/api/inventory"]).
Proof.
  eapply (invalid_target_url (RT:=Model.runtime) _ _ _ _ _ _ _ "/post"
            [KV_get "path:TARGET_A:/api/inventory"] Model.InvalidURL
            bad_endpoint_resolved);
    [vm_compute; reflexivity | vm_compute; reflexivity].
Defined.

Lemma backend_rejection_witness :
  fst (fetch (RT:=Model.offline) inventory env) =
    internal_error (RT:=Model.offline) "Network connection lost".
Proof.
  eapply (backend_rejection (RT:=Model.offline) inventory env).
  - vm_compute. do 3 right. left. reflexivity.
  - reflexivity.
Defined.

Lemma store_rejection_witness :
  fst (fetch inventory env_endpoint_down) =
    internal_error "KV GET failed: 503 Service Unavailable".
Proof.
  eapply (store_rejection (RT:=Model.runtime) inventory env_endpoint_down
            "endpoint:TARGET_A").
  - vm_compute. right. left. reflexivity.
  - reflexivity.
Defined.


Lemma forwarded_after_lookups_witness :
  exists url fallback route t e,
    URL_new (req_url inventory) None = Ok url /\
    snd (fetch inventory env) =
      (map KV_get (fallback ++ [route]) ++
       [KV_get ("endpoint:" ++ t);
        KV_get ("path:" ++ t ++ ":" ++ pathname url);
        Fetch (make_forward inventory
                 (VObject [("data", VString (Model.JSON_stringify nestle))])
                 (parsed "https://httpbin.dev/post"))])%list /\
    (length fallback <= 1)%nat /\
    Forall (fun k => starts_with "route:" k = true) (fallback ++ [route]) /\
    ROUTING_KV_get env route = Ok (Some t) /\ t <> "" /\
    ROUTING_KV_get env ("endpoint:" ++ t) = Ok (Some e) /\ e <> "".
Proof.
  apply (forwarded_after_lookups (RT:=Model.runtime) inventory env).
  vm_compute. do 3 right. left. reflexivity.
Defined.

Lemma store_frame_witness :
  fetch inventory (Env_of_map store_other_customers) = fetch inventory env.
Proof.
  apply (store_frame (RT:=Model.runtime) inventory env).
  intros key Hin. vm_compute in Hin.
  destruct Hin as [H|[H|[H|[H|[]]]]]; try discriminate H;
    injection H as <-; vm_compute; reflexivity.
Defined.


End FurtherRuns.
